(** * train_random_forest/run.py: a shallow embedding and its properties

    The script trains a random forest on a table of listings.  This file
    embeds the parts of [run.py] that the specification talks about:

    - [plot_feature_importance]: the reduction of the forest's importance
      array to one bar per feature name;
    - [delta_date_feature]: the date column transform;
    - [get_inference_pipeline]: the construction of the preprocessing plan
      and of the estimator from the hyperparameter dictionary;
    - the prefix of [go] that injects the seed and prepares the split.

    Conventions.  Python lists and numpy vectors are [list]; a Python [dict]
    with string keys is a [gmap string _]; a raised exception is the [Raise]
    branch of [result], carrying the name of the exception class.  The
    importances are read twice: as rationals ([Q], compared with [==]), which
    is the exact arithmetic that the float computation approximates, and as
    binary64 numbers with their rounding ([sum_float64]).  pandas timestamps
    and time differences are 64-bit integers counting nanoseconds: they are
    integers here, and the subtraction checks the 64-bit range as pandas
    does. *)

From Stdlib Require Import ZArith QArith Qround List.
From Stdlib Require Floats.PrimFloat.
Import (notations) PrimFloat.
From stdpp Require Import gmap strings list sorting.

Local Open Scope string_scope.
Local Open Scope list_scope.
Local Open Scope Z_scope.

(** ** Exceptions *)

(** An exception is identified by the name of its class. *)
Definition exn := string.

Inductive result (A : Type) : Type :=
| Ok (a : A)
| Raise (e : exn).
Arguments Ok {A} a.
Arguments Raise {A} e.

#[global] Instance result_ret : MRet result := fun A a => Ok a.

#[global] Instance result_bind : MBind result := fun A B k r =>
  match r with
  | Ok a => k a
  | Raise e => Raise e
  end.

(** [mapM f l] runs [f] on the elements from left to right and stops at the
    first exception. *)
Fixpoint mapM {A B : Type} (f : A -> result B) (l : list A) : result (list B) :=
  match l with
  | [] => Ok []
  | a :: l' => b ← f a; bs ← mapM f l'; Ok (b :: bs)
  end.

(** ** Python sequences *)

(** A slice bound [i] on a sequence of length [n]: a negative bound counts
    from the end, and the result is clamped to [0..n]. *)
Definition slice_bound (n : nat) (i : Z) : nat :=
  let j := if i <? 0 then i + Z.of_nat n else i in
  Z.to_nat (Z.min (Z.max j 0) (Z.of_nat n)).

(** [l[:i]] *)
Definition slice_to {A : Type} (i : Z) (l : list A) : list A :=
  take (slice_bound (length l) i) l.

(** [l[i:]] *)
Definition slice_from {A : Type} (i : Z) (l : list A) : list A :=
  drop (slice_bound (length l) i) l.

(** [len(l)] *)
Definition len {A : Type} (l : list A) : Z := Z.of_nat (length l).

(** The builtin [sum]: a left fold that starts from 0.  This is the reading
    in exact arithmetic; [sum_float64] below is the same fold on binary64
    numbers. *)
Definition sum (l : list Q) : Q := fold_left Qplus l 0%Q.

(** ** plot_feature_importance *)

(** What is handed to the plotting library: the bar heights, the tick
    positions and the tick labels. *)
Record BarChart : Type := {
  heights : list Q;
  xticks : list nat;
  xticklabels : list string
}.

(** The bars, ticks and labels that the function computes (lines 135 to
    143 of the script and the argument of line 144).
    [feature_importances_] stands for
    [pipe["random_forest"].feature_importances_].  Whether matplotlib
    accepts the labels is [plot_feature_importance_figure] below. *)
Definition plot_feature_importance
    (feature_importances_ : list Q) (feat_names : list string) : BarChart :=
  let feat_imp := slice_to (len feat_names - 1) feature_importances_ in
  let nlp_importance := sum (slice_from (len feat_names - 1) feature_importances_) in
  let feat_imp := feat_imp ++ [nlp_importance] in
  {| heights := feat_imp;
     xticks := seq 0 (length feat_imp);
     xticklabels := feat_names |}.

(** [set_xticklabels] of matplotlib, after ticks have been set at fixed
    positions: a number of labels that is neither 0 nor the number of ticks
    raises [ValueError]. *)
Definition set_xticklabels (ticks : list nat) (labels : list string) : result unit :=
  if (negb (length ticks =? length labels)%nat && negb (length labels =? 0)%nat)%bool
  then Raise "ValueError"
  else Ok tt.

(** The whole of [plot_feature_importance]: the chart is returned when the
    labels have been accepted. *)
Definition plot_feature_importance_figure
    (feature_importances_ : list Q) (feat_names : list string) : result BarChart :=
  let chart := plot_feature_importance feature_importances_ feat_names in
  _ ← set_xticklabels (xticks chart) (xticklabels chart);
  Ok chart.



(** The reduction as the specification words it: walk the groups in plan
    order, consume [output_width] raw entries per group and sum them into
    the group's scalar. *)
Fixpoint reduce_by_widths (widths : list nat) (raw : list Q) : list Q :=
  match widths with
  | [] => []
  | w :: ws => sum (take w raw) :: reduce_by_widths ws (drop w raw)
  end.

(** The widths of the eleven features of this pipeline, in the order of
    [processed_features]: the ordinal column, the one-hot column with [k]
    fitted categories, the seven numeric columns, the date column and the
    text column with [t] vectorizer dimensions. *)
Definition feature_widths (k t : nat) : list nat :=
  [1%nat; k] ++ repeat 1%nat 7 ++ [1%nat; t].

(** ** pandas: frames, timestamps *)

(** A frame holds its columns; [index_len] is the number of rows, kept
    apart so that a frame without columns still knows its height. *)
Record DataFrame (A : Type) : Type := {
  index_len : nat;
  columns : list (list A)
}.
Arguments index_len {A} d.
Arguments columns {A} d.

(** The number of columns of a two-dimensional array given by its rows. *)
Definition ncols {A : Type} (a : list (list A)) : nat :=
  match a with
  | [] => 0%nat
  | r :: _ => length r
  end.

(** The entries at position [j] of the lists of [a]: column [j] of an array
    given by its rows, row [j] of a frame given by its columns. *)
Definition nths {A : Type} (j : nat) (a : list (list A)) : list A :=
  omap (fun r : list A => r !! j) a.

(** [a[i][j]] *)
Definition cell_at {A : Type} (a : list (list A)) (i j : nat) : option A :=
  a !! i ≫= fun r => r !! j.

(** [pd.DataFrame(a)] for a two-dimensional array [a]. *)
Definition DataFrame_of_array {A : Type} (a : list (list A)) : DataFrame A :=
  {| index_len := length a;
     columns := map (fun j => nths j a) (seq 0 (ncols a)) |}.

(** [df.to_numpy()] *)
Definition to_numpy {A : Type} (df : DataFrame A) : list (list A) :=
  map (fun i => nths i (columns df)) (seq 0 (index_len df)).

(** [df.apply(f)] (and [df.apply(f, axis=0)]): [f] is run on each column in
    turn; the first exception aborts the call. *)
Definition DataFrame_apply {A B : Type}
    (f : list A -> result (list B)) (df : DataFrame A) : result (DataFrame B) :=
  cols ← mapM f (columns df);
  Ok {| index_len := index_len df; columns := cols |}.

(** A timestamp counts nanoseconds since the epoch; [None] is [NaT]. *)
Definition Timestamp : Type := option Z.

Definition ns_per_day : Z := 86400000000000.

(** [d.max()] on a datetime column: [NaT] entries are skipped, and the
    result is [NaT] when nothing is left. *)
Fixpoint Series_max (d : list Timestamp) : Timestamp :=
  match d with
  | [] => None
  | None :: d' => Series_max d'
  | Some t :: d' =>
      match Series_max d' with
      | None => Some t
      | Some m => Some (Z.max t m)
      end
  end.

(** The range of the 64-bit integers that hold timestamps and time
    differences; [int64_min] itself is the bit pattern of [NaT]. *)
Definition int64_min : Z := - 2 ^ 63.
Definition int64_max : Z := 2 ^ 63 - 1.

(** [m - x] for two timestamps.  pandas computes [x - m] in 64 bits with an
    overflow check and negates the result: a difference outside the range
    raises [OverflowError], the difference [int64_min] is [NaT] and stays
    [NaT]; [NaT] on either side gives [NaT]. *)
Definition Timestamp_rsub (m x : Timestamp) : result (option Z) :=
  match m, x with
  | Some m, Some t =>
      if ((t - m <? int64_min) || (int64_max <? t - m))%bool
      then Raise "OverflowError"
      else if t - m =? int64_min then Ok None
      else Ok (Some (m - t))
  | _, _ => Ok None
  end.

(** [m - d]: a scalar timestamp minus a column. *)
Definition Series_rsub (m : Timestamp) (d : list Timestamp)
  : result (list (option Z)) :=
  mapM (Timestamp_rsub m) d.

(** [s.dt.days]: the whole days of each time difference (rounded down);
    a missing difference stays missing. *)
Definition dt_days (s : list (option Z)) : list (option Z) :=
  map (fmap (fun td => td / ns_per_day)) s.

(** The function that [delta_date_feature] applies to each column:
    [(d.max() - d).dt.days]. *)
Definition recency (d : list Timestamp) : result (list (option Z)) :=
  differences ← Series_rsub (Series_max d) d;
  Ok (dt_days differences).

(** The days that [recency] returns when no difference leaves the 64-bit
    range: for each date that is present, the whole days up to the latest
    date of the column. *)
Definition recency_days (d : list Timestamp) : list (option Z) :=
  map (fun x => match Series_max d, x with
                | Some m, Some t => Some ((m - t) / ns_per_day)
                | _, _ => None
                end) d.

(** The dates that are present in [d] lie at most [int64_max] nanoseconds
    (a little over 292 years) apart. *)
Definition span_fits (d : list Timestamp) : Prop :=
  forall t t', Some t ∈ d -> Some t' ∈ d -> t' - t <= int64_max.

(** The same for every column of an array of timestamps given by its
    rows. *)
Definition spans_fit (tss : list (list Timestamp)) : Prop :=
  forall i i' j t t',
    cell_at tss i j = Some (Some t) -> cell_at tss i' j = Some (Some t') ->
    t' - t <= int64_max.

(** ** delta_date_feature *)

Section DeltaDate.

(** [cell] is whatever the array holds (strings, numbers, dates), and
    [to_datetime] is [pd.to_datetime] on one value: a timestamp, [NaT] for a
    missing value, or an exception for a value that it cannot read. *)
Variable cell : Type.
Variable to_datetime : cell -> result Timestamp.

Definition delta_date_feature (dates : list (list cell)) : result (list (list (option Z))) :=
  date_sanitized ← DataFrame_apply (mapM to_datetime) (DataFrame_of_array dates);
  deltas ← DataFrame_apply recency date_sanitized;
  Ok (to_numpy deltas).

End DeltaDate.

Arguments delta_date_feature {cell} to_datetime dates.

(** [pd.to_datetime] on integers reads them as nanoseconds since the
    epoch: [int64_min] is read as [NaT], and an integer outside the 64-bit
    range is out of bounds.  This instance is used to run the transform on
    concrete data. *)
Definition to_datetime_int (z : Z) : result Timestamp :=
  if z =? int64_min then Ok None
  else if ((int64_min <? z) && (z <=? int64_max))%bool then Ok (Some z)
  else Raise "OutOfBoundsDatetime".

(** ** scikit-learn: the estimators the script instantiates *)

(** Values of a parsed JSON document, as [json.load] returns them. *)
#[warnings="-register-all"]
Inductive json : Type :=
| JNull
| JBool (b : bool)
| JInt (z : Z)
| JFloat (q : Q)
| JStr (s : string)
| JList (l : list json)
| JDict (d : list (string * json)).

Inductive strategy : Type := most_frequent | constant.

Inductive fill : Type := fill_int (z : Z) | fill_str (s : string).

(** What [OneHotEncoder] does with a category it has not been fitted on. *)
Inductive unknown_policy : Type := unknown_error | unknown_ignore.

(** The value of [handle_unknown] when the call does not pass it: the
    signature of scikit-learn's [OneHotEncoder] has [handle_unknown='error']. *)
Definition handle_unknown_default : unknown_policy := unknown_error.

Inductive pyfunc : Type :=
| func_delta_date_feature
| func_np_reshape (newshape : Z).

Inductive step : Type :=
| OrdinalEncoder
| SimpleImputer (strategy_ : strategy) (fill_value : option fill)
| OneHotEncoder (handle_unknown : unknown_policy)
| FunctionTransformer (func : pyfunc)
| TfidfVectorizer (binary : bool) (max_features : Z) (stop_words : string).

Inductive transformer : Type :=
| estimator (s : step)
| make_pipeline (steps : list step).

Record ColumnTransformer : Type := {
  transformers : list (string * transformer * list string);
  remainder : string
}.

(** An estimator built from keyword arguments keeps its parameters. *)
Record Forest : Type := { params : gmap string json }.

(** [RandomForestRegressor] called with the dictionary [kwargs] unpacked
    into keyword arguments.  [signature] maps each keyword of the
    constructor to its default.  Python binds the keywords before the body
    of the constructor runs: a keyword that the signature does not have
    raises [TypeError]; the others override the defaults. *)
Definition RandomForestRegressor
    (signature kwargs : gmap string json) : result Forest :=
  if decide (dom kwargs ⊆ dom signature)
  then Ok {| params := kwargs ∪ signature |}
  else Raise "TypeError".

Record Pipeline : Type := {
  preprocessor : ColumnTransformer;
  random_forest : Forest
}.

(** ** get_inference_pipeline *)

Definition ordinal_categorical : list string := ["room_type"].
Definition non_ordinal_categorical : list string := ["neighbourhood_group"].

Definition ordinal_categorical_preproc : transformer := estimator OrdinalEncoder.

Definition non_ordinal_categorical_preproc : transformer :=
  make_pipeline [SimpleImputer most_frequent None; OneHotEncoder handle_unknown_default].

Definition zero_imputed : list string :=
  ["minimum_nights"; "number_of_reviews"; "reviews_per_month";
   "calculated_host_listings_count"; "availability_365"; "longitude"; "latitude"].

Definition zero_imputer : transformer :=
  estimator (SimpleImputer constant (Some (fill_int 0))).

Definition date_imputer : transformer :=
  make_pipeline [SimpleImputer constant (Some (fill_str "2010-01-01"));
                 FunctionTransformer func_delta_date_feature].

Definition name_tfidf (max_tfidf_features : Z) : transformer :=
  make_pipeline [SimpleImputer constant (Some (fill_str ""));
                 FunctionTransformer (func_np_reshape (-1));
                 TfidfVectorizer false max_tfidf_features "english"].

(** The names of the features, in the order of the transformers. *)
Definition processed_features : list string :=
  ordinal_categorical ++ non_ordinal_categorical ++ zero_imputed ++ ["last_review"; "name"].

Definition get_inference_pipeline
    (signature rf_config : gmap string json) (max_tfidf_features : Z)
  : result (Pipeline * list string) :=
  let preprocessor :=
    {| transformers :=
         [("ordinal_cat", ordinal_categorical_preproc, ordinal_categorical);
          ("non_ordinal_cat", non_ordinal_categorical_preproc, non_ordinal_categorical);
          ("impute_zero", zero_imputer, zero_imputed);
          ("transform_date", date_imputer, ["last_review"]);
          ("transform_name", name_tfidf max_tfidf_features, ["name"])];
       remainder := "drop" |} in
  random_forest ← RandomForestRegressor signature rf_config;
  let sk_pipe := {| preprocessor := preprocessor; random_forest := random_forest |} in
  Ok (sk_pipe, processed_features).

(** ** go *)

(** A value of the table read from the CSV file. *)
Inductive value : Type :=
| missing
| number (q : Q)
| text (s : string).

Record Namespace : Type := {
  trainval_artifact : string;
  val_size : Q;
  random_seed : Z;
  stratify_by : string;
  rf_config : string;
  max_tfidf_features : Z;
  output_artifact : string
}.

Record Split : Type := {
  X_train : gmap string (list value);
  X_val : gmap string (list value);
  y_train : list value;
  y_val : list value
}.

(** [X[name]]: a column that the frame does not have raises [KeyError]. *)
Definition getitem (X : gmap string (list value)) (name : string) : result (list value) :=
  match X !! name with
  | Some c => Ok c
  | None => Raise "KeyError"
  end.

(** [X.pop(name)]: the column, and the frame without it. *)
Definition pop (X : gmap string (list value)) (name : string)
  : result (list value * gmap string (list value)) :=
  c ← getitem X name;
  Ok (c, delete name X).

Section Go.

(** [signature] is the keyword signature of [RandomForestRegressor];
    [train_test_split X y test_size stratify random_state] is scikit-learn's
    function of that name. *)
Variable signature : gmap string json.
Variable train_test_split :
  gmap string (list value) -> list value -> Q -> list value -> Z -> result Split.

Record Prepared : Type := {
  metadata : gmap string json;
  split : Split;
  sk_pipe : Pipeline;
  features : list string
}.

(** [go] from the top down to the construction of the pipeline.
    [loaded] is what [json.load] read from [args.rf_config], and [trainval]
    is the frame read from the artifact.  Fitting, scoring and export, which
    follow, call into libraries only. *)
Definition go (args : Namespace) (loaded : gmap string json)
    (trainval : gmap string (list value)) : result Prepared :=
  let rf_config := <["random_state" := JInt (random_seed args)]> loaded in
  '(y, X) ← pop trainval "price";
  stratify ← getitem X (stratify_by args);
  s ← train_test_split X y (val_size args) stratify (random_seed args);
  '(sk_pipe, processed_features) ← get_inference_pipeline signature rf_config (max_tfidf_features args);
  Ok {| metadata := rf_config; split := s; sk_pipe := sk_pipe;
        features := processed_features |}.

End Go.

(** The default of [--stratify_by] in the argument parser. *)
Definition stratify_by_default : string := "none".

(** A split without shuffling, used to run [go] on concrete input: the last
    [ceil(test_size * n)] rows are held out. *)
Definition split_in_order (X : gmap string (list value)) (y : list value)
    (test_size : Q) (stratify : list value) (random_state : Z) : result Split :=
  let n := length y in
  let n_test := Z.to_nat (Qceiling (test_size * inject_Z (Z.of_nat n))) in
  let n_train := (n - n_test)%nat in
  Ok {| X_train := take n_train <$> X; X_val := drop n_train <$> X;
        y_train := take n_train y; y_val := drop n_train y |}.

(** A small table of listings, and a run with the default arguments. *)
Definition listings : gmap string (list value) :=
  list_to_map
    [("price", [number 100; number 80; number 120; number 60]);
     ("room_type", [text "Private room"; text "Entire home/apt";
                    text "Private room"; text "Entire home/apt"]);
     ("neighbourhood_group", [text "Queens"; text "Bronx"; missing; text "Queens"]);
     ("last_review", [text "2019-05-21"; missing; text "2019-07-05"; text "2018-11-19"]);
     ("name", [text "Cozy room"; text "Loft"; missing; text "Sunny flat"])].

Definition default_args : Namespace :=
  {| trainval_artifact := "trainval_data.csv:latest";
     val_size := 1 # 4;
     random_seed := 42;
     stratify_by := stratify_by_default;
     rf_config := "{}";
     max_tfidf_features := 10;
     output_artifact := "random_forest_export" |}.

(** ** The imputed one-hot group, fitted and applied

    The meaning of [SimpleImputer(strategy="most_frequent")] followed by
    [OneHotEncoder()] on one column of categories, after scikit-learn's
    documented behaviour.  A column is a list of optional strings, [None]
    being a missing value. *)

Definition observed (col : list (option string)) : list string := omap id col.

(** How often [c] occurs in [l]. *)
Definition count (c : string) (l : list string) : nat :=
  length (filter (fun x => x = c) l).

(** Of two candidates the more frequent one wins, and the smaller one when
    they are equally frequent. *)
Definition prefer (l : list string) (a b : string) : string :=
  if (count a l <? count b l)%nat then b
  else if (count b l <? count a l)%nat then a
  else if String.leb a b then a else b.

(** [r] is at least as good a statistic as [c]: observed more often, or as
    often and not greater. *)
Definition preferred (l : list string) (r c : string) : Prop :=
  (count c l < count r l)%nat \/ (count c l = count r l /\ String.le r c).

(** The statistic of the [most_frequent] strategy; there is none when no
    value has been observed. *)
Definition most_frequent_value (l : list string) : option string :=
  match l with
  | [] => None
  | x :: xs => Some (foldl (prefer l) x xs)
  end.

(** [SimpleImputer.transform] with statistic [v]. *)
Definition impute (v : string) (col : list (option string)) : list string :=
  default v <$> col.

(** [categories_] of a fitted encoder: the distinct values, sorted. *)
Definition unique_sorted (l : list string) : list string :=
  merge_sort String.le (remove_dups l).

Record FittedOneHot : Type := {
  statistics_ : string;
  handle_unknown_ : unknown_policy;
  categories_ : list string
}.

(** The number of output columns. *)
Definition width (f : FittedOneHot) : nat := length (categories_ f).

(** The column that a category is encoded in. *)
Definition column_of (f : FittedOneHot) (c : string) : option nat :=
  list_find (fun k => k = c) (categories_ f) ≫= fun p => Some (p.1).

(** [fit] of the two-step pipeline.  Only the step sequence that the script
    builds for a categorical column is given a meaning.  When no value has
    been observed the imputer leaves no feature and the encoder refuses the
    empty input. *)
Definition fit_categorical (t : transformer) (col : list (option string))
  : result FittedOneHot :=
  match t with
  | make_pipeline [SimpleImputer most_frequent _; OneHotEncoder hu] =>
      match most_frequent_value (observed col) with
      | None => Raise "ValueError"
      | Some v =>
          Ok {| statistics_ := v; handle_unknown_ := hu;
                categories_ := unique_sorted (impute v col) |}
      end
  | _ => Raise "NotImplementedError"
  end.

(** One encoded row: 1 in the column of [c], 0 elsewhere. *)
Definition one_hot (cats : list string) (c : string) : list Q :=
  map (fun k => if decide (k = c) then 1%Q else 0%Q) cats.

(** One value at transform time: a category that has not been fitted raises
    [ValueError] under [handle_unknown='error'] and is encoded as a row of
    zeros under [handle_unknown='ignore']. *)
Definition encode (f : FittedOneHot) (c : string) : result (list Q) :=
  if decide (c ∈ categories_ f) then Ok (one_hot (categories_ f) c)
  else match handle_unknown_ f with
       | unknown_error => Raise "ValueError"
       | unknown_ignore => Ok (one_hot (categories_ f) c)
       end.

(** [transform] of the fitted two-step pipeline.  A batch without rows is
    refused by the input check of the imputer. *)
Definition transform_categorical (f : FittedOneHot) (col : list (option string))
  : result (list (list Q)) :=
  match col with
  | [] => Raise "ValueError"
  | _ :: _ => mapM (encode f) (impute (statistics_ f) col)
  end.

(** [r] is the encoding of category [c]: as wide as the encoder, 1 in the
    column of [c] and 0 in every other column. *)
Definition encodes (f : FittedOneHot) (c : string) (r : list Q) : Prop :=
  length r = width f
  /\ exists j, column_of f c = Some j
               /\ categories_ f !! j = Some c
               /\ r !! j = Some 1%Q
               /\ forall j', j' <> j -> (j' < width f)%nat -> r !! j' = Some 0%Q.

(** The keyword signature of [RandomForestRegressor] in scikit-learn 1.x,
    with its defaults; used to run the construction on concrete input. *)
Definition sklearn_signature : gmap string json :=
  list_to_map
    [("n_estimators", JInt 100); ("criterion", JStr "squared_error");
     ("max_depth", JNull); ("min_samples_split", JInt 2);
     ("min_samples_leaf", JInt 1); ("min_weight_fraction_leaf", JFloat 0);
     ("max_features", JFloat 1); ("max_leaf_nodes", JNull);
     ("min_impurity_decrease", JFloat 0); ("bootstrap", JBool true);
     ("oob_score", JBool false); ("n_jobs", JNull); ("random_state", JNull);
     ("verbose", JInt 0); ("warm_start", JBool false); ("ccp_alpha", JFloat 0);
     ("max_samples", JNull)].

(** The [neighbourhood_group] column of a small training fold: two
    categories, one missing value. *)
Definition training_column : list (option string) :=
  [Some "Queens"; Some "Bronx"; None; Some "Queens"].

(** A forest fitted on a frame whose one-hot column has two categories and
    whose text column has two vectorizer dimensions reports thirteen
    importances; they are non-negative and add up to 1. *)
Definition importances_two_categories : list Q :=
  [10 # 100; 20 # 100; 5 # 100; 5 # 100; 5 # 100; 5 # 100; 5 # 100;
   5 # 100; 5 # 100; 10 # 100; 5 # 100; 10 # 100; 10 # 100]%Q.

(** The importances of a forest fitted on a frame whose one-hot column has
    a single category and whose text column has two vectorizer dimensions:
    twelve entries. *)
Definition importances_one_category : list Q :=
  [10 # 100; 20 # 100; 5 # 100; 5 # 100; 5 # 100; 5 # 100; 5 # 100;
   5 # 100; 5 # 100; 10 # 100; 15 # 100; 10 # 100]%Q.

(** Values of a date column before they are read: a date given by its
    nanoseconds, a missing value, or text that is no date.
    [to_datetime_raw] reads them as [pd.to_datetime] does: a timestamp,
    [NaT], or an exception. *)
Inductive raw_date : Type :=
| date_ns (z : Z)
| date_missing
| date_garbage.

Definition to_datetime_raw (x : raw_date) : result Timestamp :=
  match x with
  | date_ns z => to_datetime_int z
  | date_missing => Ok None
  | date_garbage => Raise "ValueError"
  end.

(** A split that, like scikit-learn's, refuses a [test_size] outside the
    open interval from 0 to 1 with [ValueError]; used to run [go] on
    arguments that make the split fail. *)
Definition split_checked (X : gmap string (list value)) (y : list value)
    (test_size : Q) (stratify : list value) (random_state : Z) : result Split :=
  if (Qle_bool test_size 0 || Qle_bool 1 test_size)%bool
  then Raise "ValueError"
  else split_in_order X y test_size stratify random_state.

(** Arguments that name an existing column to stratify by. *)
Definition room_type_args : Namespace :=
  {| trainval_artifact := "trainval_data.csv:latest";
     val_size := 1 # 4;
     random_seed := 42;
     stratify_by := "room_type";
     rf_config := "rf.json";
     max_tfidf_features := 10;
     output_artifact := "random_forest_export" |}.



(** * Properties *)

(** ** Sums and slices *)

Lemma fold_left_Qplus_acc (l : list Q) (a : Q) :
  (fold_left Qplus l a == a + sum l)%Q.
Proof.
  unfold sum. revert a.
  induction l as [|x l IH]; intros a; simpl.
  - ring.
  - rewrite (IH (a + x)%Q), (IH (0 + x)%Q). ring.
Qed.

Lemma sum_cons (x : Q) (l : list Q) : (sum (x :: l) == x + sum l)%Q.
Proof.
  unfold sum at 1. simpl. rewrite fold_left_Qplus_acc. ring.
Qed.

Lemma sum_app (l1 l2 : list Q) : (sum (l1 ++ l2) == sum l1 + sum l2)%Q.
Proof.
  induction l1 as [|x l1 IH]; simpl.
  - unfold sum at 2. simpl. ring.
  - rewrite !sum_cons, IH. ring.
Qed.

Lemma sum_take_drop (n : nat) (l : list Q) :
  (sum (take n l) + sum (drop n l) == sum l)%Q.
Proof.
  rewrite <- sum_app, take_drop. reflexivity.
Qed.

Lemma sum_singleton (x : Q) : (sum [x] == x)%Q.
Proof. unfold sum. simpl. ring. Qed.

(** ** The importance reduction *)


(** In exact arithmetic the bar heights that [plot_feature_importance]
    computes add up to the sum of the raw importances, for every raw
    importance vector and every list of feature names, hence in particular
    whenever the two are consistent with each other. *)
Theorem plot_feature_importance_conserves_sum
    (feature_importances_ : list Q) (feat_names : list string) :
  (sum (heights (plot_feature_importance feature_importances_ feat_names))
   == sum feature_importances_)%Q.
Proof.
  unfold plot_feature_importance, slice_to, slice_from. simpl.
  rewrite sum_app, sum_singleton.
  apply sum_take_drop.
Qed.



Lemma slice_bound_in_range (n i : nat) :
  (i <= n)%nat -> slice_bound n (Z.of_nat i) = i.
Proof.
  intros Hi. unfold slice_bound.
  destruct (Z.ltb_spec (Z.of_nat i) 0) as [Hneg|_]; [lia|].
  lia.
Qed.

(** The walk over widths, when every group but the last has width 1 and the
    last one takes what is left. *)
Lemma reduce_by_unit_widths (n : nat) (raw : list Q) :
  (n <= length raw)%nat ->
  Forall2 Qeq (take n raw ++ [sum (drop n raw)])
              (reduce_by_widths (repeat 1%nat n ++ [(length raw - n)%nat]) raw).
Proof.
  revert raw. induction n as [|n IH]; intros raw Hn.
  - simpl. rewrite Nat.sub_0_r, drop_0, firstn_all.
    constructor; [reflexivity | constructor].
  - destruct raw as [|x raw]; simpl in Hn; [lia|].
    simpl. constructor.
    + rewrite take_0. symmetry. apply sum_singleton.
    + rewrite drop_0. apply IH. lia.
Qed.

(** What the code does, in terms of widths: each name but the last gets one
    raw entry, the last name gets the sum of all the remaining ones. *)
Lemma plot_feature_importance_unit_widths
    (feature_importances_ : list Q) (feat_names : list string) :
  (0 < length feat_names)%nat ->
  (length feat_names - 1 <= length feature_importances_)%nat ->
  Forall2 Qeq
    (heights (plot_feature_importance feature_importances_ feat_names))
    (reduce_by_widths
       (repeat 1%nat (length feat_names - 1)
        ++ [(length feature_importances_ - (length feat_names - 1))%nat])
       feature_importances_).
Proof.
  intros Hpos Hle.
  unfold plot_feature_importance, slice_to, slice_from, len. simpl.
  replace (Z.of_nat (length feat_names) - 1)
    with (Z.of_nat (length feat_names - 1)) by lia.
  rewrite slice_bound_in_range by exact Hle.
  apply reduce_by_unit_widths, Hle.
Qed.

(** With a single fitted category the one-hot column is one entry wide, and
    the code agrees with the walk over the widths of the plan. *)
Lemma plot_feature_importance_one_category (raw : list Q) (t : nat) :
  length raw = (10 + t)%nat ->
  Forall2 Qeq (heights (plot_feature_importance raw processed_features))
              (reduce_by_widths (feature_widths 1 t) raw).
Proof.
  intros Hlen.
  pose proof (plot_feature_importance_unit_widths raw processed_features) as H.
  change (length processed_features) with 11%nat in H.
  rewrite Hlen in H.
  replace (10 + t - (11 - 1))%nat with t in H by lia.
  apply H; simpl; lia.
Qed.

(** C1, at a forest with two fitted one-hot categories: the plan has widths
    1, 2, 1 (seven times), 1 and 2, and the raw vector has as many entries
    as the plan is wide; yet the bar of [neighbourhood_group] is its first
    raw entry only (20/100, not 25/100), the bars of the numeric columns and
    of [last_review] are shifted by one position, and the bar of [name] also
    takes in the raw entry of [last_review] (25/100, not 20/100).  The
    heights differ from the walk over the widths of the plan. *)
Theorem plot_feature_importance_two_categories :
  length importances_two_categories
    = fold_right Nat.add 0%nat (feature_widths 2 2)
  /\ Forall2 Qeq
       (heights (plot_feature_importance importances_two_categories processed_features))
       [10 # 100; 20 # 100; 5 # 100; 5 # 100; 5 # 100; 5 # 100; 5 # 100;
        5 # 100; 5 # 100; 10 # 100; 25 # 100]%Q
  /\ Forall2 Qeq
       (reduce_by_widths (feature_widths 2 2) importances_two_categories)
       [10 # 100; 25 # 100; 5 # 100; 5 # 100; 5 # 100; 5 # 100; 5 # 100;
        5 # 100; 10 # 100; 5 # 100; 20 # 100]%Q
  /\ ~ Forall2 Qeq
       (heights (plot_feature_importance importances_two_categories processed_features))
       (reduce_by_widths (feature_widths 2 2) importances_two_categories).
Proof.
  split; [reflexivity|].
  split; [vm_compute; repeat constructor|].
  split; [vm_compute; repeat constructor|].
  intros H. vm_compute in H.
  inversion H as [|? ? ? ? _ H1]; subst.
  inversion H1 as [|? ? ? ? Hq _]; subst.
  vm_compute in Hq. discriminate Hq.
Qed.

(** ** The error monad *)

Lemma mapM_Forall2 {A B : Type} (f : A -> result B) (l : list A) (l' : list B) :
  Forall2 (fun x y => f x = Ok y) l l' -> mapM f l = Ok l'.
Proof.
  induction 1 as [|x y l l' Hxy _ IH]; simpl.
  - reflexivity.
  - rewrite Hxy. simpl. rewrite IH. reflexivity.
Qed.

Lemma mapM_map_Ok {A B C : Type} (f : B -> result C) (h : A -> B) (h' : A -> C)
    (l : list A) :
  (forall a, a ∈ l -> f (h a) = Ok (h' a)) -> mapM f (map h l) = Ok (map h' l).
Proof.
  intros Hf. apply mapM_Forall2.
  induction l as [|a l IH]; simpl; constructor.
  - apply Hf. left.
  - apply IH. intros b Hb. apply Hf. right. exact Hb.
Qed.

(** ** Arrays and frames *)

Lemma nths_lookup {A : Type} (a : list (list A)) (n i j : nat) :
  Forall (fun r => length r = n) a -> (j < n)%nat ->
  nths j a !! i = cell_at a i j.
Proof.
  intros Hrect Hj. revert i.
  induction Hrect as [|r a Hr _ IH]; intros i.
  - reflexivity.
  - unfold nths. simpl.
    destruct (lookup_lt_is_Some_2 r j) as [x Hx]; [lia|].
    rewrite Hx. destruct i as [|i]; simpl.
    + unfold cell_at. simpl. symmetry. exact Hx.
    + apply IH.
Qed.

Lemma nths_length {A : Type} (a : list (list A)) (n j : nat) :
  Forall (fun r => length r = n) a -> (j < n)%nat ->
  length (nths j a) = length a.
Proof.
  intros Hrect Hj.
  induction Hrect as [|r a Hr _ IH]; [reflexivity|].
  unfold nths. simpl.
  destruct (lookup_lt_is_Some_2 r j) as [x Hx]; [lia|].
  rewrite Hx. simpl. f_equal. exact IH.
Qed.

Lemma nths_Forall2 {A B : Type} (P : A -> B -> Prop) (a : list (list A))
    (b : list (list B)) (j : nat) :
  Forall2 (Forall2 P) a b -> Forall2 P (nths j a) (nths j b).
Proof.
  induction 1 as [|r s a b Hrs _ IH]; [constructor|].
  unfold nths. simpl.
  destruct (r !! j) as [x|] eqn:Hx.
  - destruct (Forall2_lookup_l _ _ _ _ _ Hrs Hx) as (y & Hy & Hxy).
    rewrite Hy. constructor; assumption.
  - apply lookup_ge_None in Hx.
    rewrite (Forall2_length _ _ _ Hrs) in Hx.
    apply lookup_ge_None in Hx. rewrite Hx. exact IH.
Qed.

Lemma rectangular_Forall2 {A B : Type} (P : A -> B -> Prop) (a : list (list A))
    (b : list (list B)) (n : nat) :
  Forall2 (Forall2 P) a b ->
  Forall (fun r => length r = n) a -> Forall (fun r => length r = n) b.
Proof.
  induction 1 as [|r s a b Hrs _ IH]; intros Hrect; [constructor|].
  inversion Hrect as [|? ? Hr Ha]; subst.
  constructor.
  - symmetry. apply (Forall2_length _ _ _ Hrs).
  - apply IH, Ha.
Qed.

Lemma cell_at_bounds {A : Type} (a : list (list A)) (n i j : nat) (x : A) :
  Forall (fun r => length r = n) a -> cell_at a i j = Some x ->
  (i < length a)%nat /\ (j < n)%nat.
Proof.
  intros Hrect Hcell. unfold cell_at in Hcell.
  destruct (a !! i) as [r|] eqn:Hr; simpl in Hcell; [|discriminate].
  split.
  - apply lookup_lt_is_Some. eauto.
  - rewrite Forall_forall in Hrect.
    rewrite <- (Hrect r).
    + apply lookup_lt_is_Some. eauto.
    + apply list_elem_of_lookup. eauto.
Qed.

Lemma ncols_rectangular {A : Type} (a : list (list A)) (n : nat) :
  Forall (fun r => length r = n) a -> (0 < length a)%nat -> ncols a = n.
Proof.
  intros Hrect Hpos. destruct Hrect; simpl in *; [lia | assumption].
Qed.

(** ** The date transform *)

Lemma mapM_Ok_map {A B : Type} (f : A -> result B) (g : A -> B) (l : list A) :
  (forall a, a ∈ l -> f a = Ok (g a)) -> mapM f l = Ok (map g l).
Proof.
  intros Hf. apply mapM_Forall2.
  induction l as [|a l IH]; simpl; constructor.
  - apply Hf. left.
  - apply IH. intros b Hb. apply Hf. right. exact Hb.
Qed.

Lemma mapM_map_ext {A B C : Type} (f : B -> result C) (h h' : A -> B) (l : list A) :
  (forall a, a ∈ l -> f (h a) = f (h' a)) -> mapM f (map h l) = mapM f (map h' l).
Proof.
  induction l as [|a l IH]; intros Hf; [reflexivity|].
  simpl. rewrite (Hf a) by left.
  rewrite IH; [reflexivity|].
  intros b Hb. apply Hf. right. exact Hb.
Qed.

Lemma elem_of_nths {A : Type} (a : list (list A)) (j : nat) (x : A) :
  x ∈ nths j a <-> exists i, cell_at a i j = Some x.
Proof.
  unfold nths, cell_at. rewrite list_elem_of_omap. split.
  - intros (r & Hr & Hx). apply list_elem_of_lookup in Hr as [i Hi].
    exists i. rewrite Hi. exact Hx.
  - intros [i Hi]. destruct (a !! i) as [r|] eqn:Hr; [|discriminate].
    exists r. split; [apply list_elem_of_lookup; eauto | exact Hi].
Qed.

Lemma nths_fmap {A B : Type} (f : A -> B) (j : nat) (a : list (list A)) :
  nths j (map (map f) a) = map f (nths j a).
Proof.
  induction a as [|r a IH]; [reflexivity|].
  unfold nths in *. cbn [map omap list_omap].
  rewrite list_lookup_fmap.
  destruct (r !! j); simpl.
  - rewrite IH. reflexivity.
  - exact IH.
Qed.

Lemma Series_max_Some (l : list Z) :
  l <> [] ->
  exists m, Series_max (Some <$> l) = Some m /\ m ∈ l /\ forall x, x ∈ l -> x <= m.
Proof.
  induction l as [|t l IH]; intros Hne; [congruence|].
  destruct l as [|t' l].
  - exists t. simpl. split; [reflexivity|]. split; [left|].
    intros x Hx. apply list_elem_of_singleton in Hx. lia.
  - destruct IH as (m & Hm & Hin & Hmax); [congruence|].
    exists (Z.max t m).
    split.
    { change (Series_max (Some <$> t :: t' :: l))
        with (match Series_max (Some <$> t' :: l) with
              | None => Some t
              | Some m => Some (Z.max t m)
              end).
      rewrite Hm. reflexivity. }
    split.
    + destruct (Z.max_spec t m) as [[_ ->]|[_ ->]]; [right; exact Hin | left].
    + intros x Hx. apply elem_of_cons in Hx as [->|Hx]; [lia|].
      specialize (Hmax x Hx). lia.
Qed.

Lemma Series_max_elem (d : list Timestamp) (t : Z) :
  Some t ∈ d -> exists m, Series_max d = Some m /\ t <= m.
Proof.
  induction d as [|x d IH]; intros Hin; [inversion Hin|].
  apply elem_of_cons in Hin as [<-|Hin].
  - simpl. destruct (Series_max d) as [m|]; eexists; (split; [reflexivity|lia]).
  - destruct (IH Hin) as (m & Hm & Hle).
    destruct x as [t'|]; simpl; rewrite Hm.
    + eexists. split; [reflexivity|lia].
    + eexists. split; [reflexivity|lia].
Qed.

Lemma Series_max_in (d : list Timestamp) (m : Z) :
  Series_max d = Some m -> Some m ∈ d.
Proof.
  revert m. induction d as [|x d IH]; intros m Hm; [discriminate|].
  destruct x as [t|]; simpl in Hm.
  - destruct (Series_max d) as [m'|] eqn:Hd.
    + injection Hm as <-.
      destruct (Z.max_spec t m') as [[_ ->]|[_ ->]]; [right; apply IH; reflexivity | left].
    + injection Hm as <-. left.
  - right. apply IH, Hm.
Qed.

(** A difference between a date and a later one that is at most
    [int64_max] is computed as it stands. *)
Lemma Timestamp_rsub_fits (m t : Z) :
  t <= m -> m - t <= int64_max ->
  Timestamp_rsub (Some m) (Some t) = Ok (Some (m - t)).
Proof.
  intros Hle Hfit. unfold Timestamp_rsub.
  assert (Hmin : int64_min = - int64_max - 1) by reflexivity.
  assert (Hmax : 0 < int64_max) by reflexivity.
  destruct (Z.ltb_spec (t - m) int64_min); [lia|].
  destruct (Z.ltb_spec int64_max (t - m)); [lia|].
  destruct (Z.eqb_spec (t - m) int64_min); [lia|].
  reflexivity.
Qed.

(** A difference beyond [int64_max] raises. *)
Lemma Timestamp_rsub_overflow (m t : Z) :
  int64_max + 1 < m - t ->
  Timestamp_rsub (Some m) (Some t) = Raise "OverflowError".
Proof.
  intros Hfar. unfold Timestamp_rsub.
  assert (Hmin : int64_min = - int64_max - 1) by reflexivity.
  destruct (Z.ltb_spec (t - m) int64_min); [reflexivity | lia].
Qed.

(** When the dates of a column are close enough, [recency] returns the days
    to the latest date. *)
Lemma recency_fits (d : list Timestamp) :
  span_fits d -> recency d = Ok (recency_days d).
Proof.
  intros Hspan. unfold recency, Series_rsub.
  rewrite (mapM_Ok_map _
             (fun x => match Series_max d, x with
                       | Some m, Some t => Some (m - t)
                       | _, _ => None
                       end)).
  - simpl. unfold dt_days, recency_days. rewrite map_map. f_equal.
    apply map_ext. intros x. destruct (Series_max d), x; reflexivity.
  - intros x Hx. destruct (Series_max d) as [m|] eqn:Hm; [|reflexivity].
    destruct x as [t|]; [|reflexivity].
    destruct (Series_max_elem d t Hx) as (m' & Hm' & Hle).
    rewrite Hm in Hm'. injection Hm' as <-.
    apply Timestamp_rsub_fits; [exact Hle|].
    apply Hspan; [exact Hx | apply Series_max_in, Hm].
Qed.

Lemma recency_days_length (d : list Timestamp) : length (recency_days d) = length d.
Proof. unfold recency_days. apply length_map. Qed.

Lemma recency_days_lookup_gen (d : list Timestamp) (i : nat) :
  recency_days d !! i
  = (fun x => match Series_max d, x with
              | Some m, Some t => Some ((m - t) / ns_per_day)
              | _, _ => None
              end) <$> d !! i.
Proof. unfold recency_days. apply list_lookup_fmap. Qed.

Lemma recency_days_lookup (l : list Z) (i : nat) (t m : Z) :
  l !! i = Some t -> Series_max (Some <$> l) = Some m ->
  recency_days (Some <$> l) !! i = Some (Some ((m - t) / ns_per_day)).
Proof.
  intros Hi Hm. rewrite recency_days_lookup_gen, Hm, list_lookup_fmap, Hi.
  reflexivity.
Qed.

(** Columns of dates that are all present, read off an array whose cells
    are close enough. *)
Lemma span_fits_cells (ts : list (list Z)) :
  (forall i i' j t t',
     cell_at ts i j = Some t -> cell_at ts i' j = Some t' -> t' - t <= int64_max) ->
  forall j, span_fits (Some <$> nths j ts).
Proof.
  intros Hcells j t t' Ht Ht'.
  apply list_elem_of_fmap in Ht as (x & Hx & Hin). injection Hx as ->.
  apply list_elem_of_fmap in Ht' as (x' & Hx' & Hin'). injection Hx' as ->.
  apply elem_of_nths in Hin as [i Hi]. apply elem_of_nths in Hin' as [i' Hi'].
  exact (Hcells i i' j x x' Hi Hi').
Qed.

Lemma spans_fit_columns (tss : list (list Timestamp)) :
  spans_fit tss -> forall j, span_fits (nths j tss).
Proof.
  intros Hcells j t t' Ht Ht'.
  apply elem_of_nths in Ht as [i Hi]. apply elem_of_nths in Ht' as [i' Hi'].
  exact (Hcells i i' j t t' Hi Hi').
Qed.

Section DeltaDateFacts.

Context {cell : Type} (to_datetime : cell -> result Timestamp).

(** A batch whose values are all read without an exception, some of them
    possibly as [NaT]: what is left is [recency] on each column. *)
Lemma delta_date_feature_read (dates : list (list cell))
    (tss : list (list Timestamp)) :
  Forall2 (Forall2 (fun x t => to_datetime x = Ok t)) dates tss ->
  delta_date_feature to_datetime dates
  = (cols ← mapM recency (map (fun j => nths j tss) (seq 0 (ncols dates)));
     Ok (to_numpy {| index_len := length dates; columns := cols |})).
Proof.
  intros Hparse. unfold delta_date_feature, DataFrame_apply, DataFrame_of_array.
  cbn [columns index_len].
  rewrite (mapM_map_Ok (mapM to_datetime) _ (fun j => nths j tss)).
  - cbn [mbind result_bind columns index_len].
    destruct (mapM recency (map (fun j => nths j tss) (seq 0 (ncols dates))));
      reflexivity.
  - intros j _. apply mapM_Forall2.
    apply (nths_Forall2 _ _ _ j) in Hparse. exact Hparse.
Qed.

(** If, besides, the dates of every column are close enough, the transform
    returns the array of the columns' days. *)
Lemma delta_date_feature_sanitized (dates : list (list cell))
    (tss : list (list Timestamp)) :
  Forall2 (Forall2 (fun x t => to_datetime x = Ok t)) dates tss ->
  (forall j, span_fits (nths j tss)) ->
  delta_date_feature to_datetime dates
  = Ok (to_numpy {| index_len := length dates;
                    columns := map (fun j => recency_days (nths j tss))
                                   (seq 0 (ncols dates)) |}).
Proof.
  intros Hparse Hspan.
  rewrite (delta_date_feature_read dates tss Hparse).
  rewrite (mapM_map_Ok recency _ (fun j => recency_days (nths j tss))).
  - reflexivity.
  - intros j _. apply recency_fits, Hspan.
Qed.

Lemma parsed_Forall2 (dates : list (list cell)) (ts : list (list Z)) :
  Forall2 (Forall2 (fun x t => to_datetime x = Ok (Some t))) dates ts ->
  Forall2 (Forall2 (fun x t => to_datetime x = Ok t)) dates (map (map Some) ts).
Proof.
  intros Hparse. apply Forall2_fmap_r.
  eapply Forall2_impl; [exact Hparse|].
  intros r s Hrs. apply Forall2_fmap_r. exact Hrs.
Qed.

(** The same for a batch whose values all read as timestamps. *)
Lemma delta_date_feature_parsed (dates : list (list cell)) (ts : list (list Z)) :
  Forall2 (Forall2 (fun x t => to_datetime x = Ok (Some t))) dates ts ->
  (forall j, span_fits (Some <$> nths j ts)) ->
  delta_date_feature to_datetime dates
  = Ok (to_numpy {| index_len := length dates;
                    columns := map (fun j => recency_days (Some <$> nths j ts))
                                   (seq 0 (ncols dates)) |}).
Proof.
  intros Hparse Hspan.
  rewrite (delta_date_feature_sanitized dates (map (map Some) ts)).
  - do 3 f_equal. apply map_ext. intros j. rewrite nths_fmap. reflexivity.
  - apply parsed_Forall2, Hparse.
  - intros j. rewrite nths_fmap. apply Hspan.
Qed.

Lemma delta_date_feature_cell (dates : list (list cell)) (ts : list (list Z))
    (c i j : nat) (t m : Z) :
  Forall (fun r => length r = c) dates ->
  Forall2 (Forall2 (fun x t => to_datetime x = Ok (Some t))) dates ts ->
  (forall j, span_fits (Some <$> nths j ts)) ->
  cell_at ts i j = Some t ->
  Series_max (Some <$> nths j ts) = Some m ->
  exists out,
    delta_date_feature to_datetime dates = Ok out
    /\ cell_at out i j = Some (Some ((m - t) / ns_per_day)).
Proof.
  intros Hrect Hparse Hspan Hcell Hm.
  eexists. split; [apply (delta_date_feature_parsed dates ts Hparse Hspan)|].
  pose proof (rectangular_Forall2 _ _ _ _ Hparse Hrect) as Hrect'.
  pose proof (Forall2_length _ _ _ Hparse) as Hlen.
  destruct (cell_at_bounds _ _ _ _ _ Hrect' Hcell) as [Hi Hj].
  rewrite (ncols_rectangular dates c) by (assumption || lia).
  unfold to_numpy. simpl. unfold cell_at at 1.
  rewrite list_lookup_fmap, lookup_seq_lt by lia. simpl.
  rewrite (nths_lookup _ (length dates)).
  - unfold cell_at.
    rewrite list_lookup_fmap, lookup_seq_lt by lia. simpl.
    apply recency_days_lookup; [|exact Hm].
    rewrite (nths_lookup _ c) by assumption. exact Hcell.
  - apply Forall_forall. intros col Hcol.
    apply list_elem_of_fmap in Hcol as (j' & -> & Hj').
    apply elem_of_seq in Hj'.
    rewrite recency_days_length, length_fmap, (nths_length _ c); [lia|assumption|lia].
  - lia.
Qed.

End DeltaDateFacts.

Lemma ns_per_day_pos : 0 < ns_per_day.
Proof. reflexivity. Qed.

Lemma recency_days_singleton (t : Z) : recency_days [Some t] = [Some 0].
Proof.
  unfold recency_days. simpl.
  rewrite Z.sub_diag. reflexivity.
Qed.

Lemma single_row_columns (trow : list Z) :
  map (fun j => recency_days (Some <$> nths j [trow])) (seq 0 (length trow))
  = map (fun _ => [Some 0]) trow.
Proof.
  apply list_eq. intros i.
  rewrite !list_lookup_fmap.
  destruct (trow !! i) as [t|] eqn:Ht.
  - rewrite lookup_seq_lt by (apply lookup_lt_is_Some; eauto). simpl.
    unfold nths. simpl. rewrite Ht. simpl.
    rewrite recency_days_singleton. reflexivity.
  - rewrite lookup_seq_ge by (apply lookup_ge_None; exact Ht). reflexivity.
Qed.

Lemma nths_0_singletons {A B : Type} (b : B) (l : list A) :
  nths 0 (map (fun _ => [b]) l) = replicate (length l) b.
Proof.
  induction l as [|a l IH]; [reflexivity|].
  unfold nths in *. simpl. f_equal. exact IH.
Qed.

Lemma int64_max_pos : 0 <= int64_max.
Proof. discriminate. Qed.

(** In a batch of one row every column holds one date. *)
Lemma span_fits_single_row (trow : list Z) (j : nat) :
  span_fits (Some <$> nths j [trow]).
Proof.
  intros t t' Ht Ht'. pose proof int64_max_pos.
  unfold nths in *. simpl in *.
  destruct (trow !! j) as [x|]; simpl in *.
  - apply list_elem_of_singleton in Ht. apply list_elem_of_singleton in Ht'.
    injection Ht as ->. injection Ht' as ->. lia.
  - inversion Ht.
Qed.

(** Closes, on an array of two rows and at most two columns given by its
    entries, the hypothesis that the dates of each column are close
    enough. *)
Ltac cells_fit :=
  let H := fresh "H" in
  let H' := fresh "H'" in
  intros [|[|?]] [|[|?]] [|[|?]] ? ? H H';
  try discriminate H; try discriminate H';
  injection H as <-; injection H' as <-;
  vm_compute; discriminate.

Section DeltaDateClaims.

Context {cell : Type} (to_datetime : cell -> result Timestamp).


(** C10: a batch of one row whose values all read as dates is transformed
    into a row of zeros, whatever the dates are, since each column's latest
    date is the row's own.  The output of a row therefore depends on the
    rows it is transformed with: a value [x] alone gives 0, and the same
    value next to one that is at least a day and at most [int64_max]
    nanoseconds later gives a positive number of days. *)
Theorem delta_date_feature_single_row
    (row : list cell) (trow : list Z) (x x' : cell) (t t' : Z) :
  Forall2 (fun x t => to_datetime x = Ok (Some t)) row trow ->
  to_datetime x = Ok (Some t) ->
  to_datetime x' = Ok (Some t') ->
  t + ns_per_day <= t' ->
  t' - t <= int64_max ->
  delta_date_feature to_datetime [row] = Ok [replicate (length row) (Some 0)]
  /\ delta_date_feature to_datetime [[x]] = Ok [[Some 0]]
  /\ delta_date_feature to_datetime [[x]; [x']]
     = Ok [[Some ((t' - t) / ns_per_day)]; [Some 0]]
  /\ 0 < (t' - t) / ns_per_day.
Proof.
  intros Hrow Hx Hx' Hlater Hclose.
  pose proof ns_per_day_pos as Hpos.
  pose proof int64_max_pos as Hmax.
  split; [|split; [|split]].
  - rewrite (delta_date_feature_parsed to_datetime [row] [trow]).
    + unfold to_numpy. cbn [index_len columns ncols length seq map].
      rewrite (Forall2_length _ _ _ Hrow), single_row_columns, nths_0_singletons.
      reflexivity.
    + constructor; [exact Hrow | constructor].
    + apply span_fits_single_row.
  - rewrite (delta_date_feature_parsed to_datetime [[x]] [[t]]).
    + unfold to_numpy, nths, recency_days. simpl.
      rewrite Z.sub_diag. reflexivity.
    + repeat constructor; exact Hx.
    + apply span_fits_single_row.
  - rewrite (delta_date_feature_parsed to_datetime [[x]; [x']] [[t]; [t']]).
    + unfold to_numpy, nths, recency_days. simpl.
      rewrite Z.max_r by lia. rewrite Z.sub_diag. reflexivity.
    + repeat constructor; assumption.
    + apply span_fits_cells.
      intros [|[|?]] [|[|?]] [|?] t1 t2 H1 H2;
        try discriminate H1; try discriminate H2;
        injection H1 as <-; injection H2 as <-; lia.
  - apply Z.div_str_pos. lia.
Qed.

End DeltaDateClaims.



Lemma delta_date_feature_single_row_witness :
  delta_date_feature to_datetime_int [[17; 0]] = Ok [replicate 2 (Some 0)]
  /\ delta_date_feature to_datetime_int [[17]] = Ok [[Some 0]]
  /\ delta_date_feature to_datetime_int [[17]; [3 * ns_per_day]]
     = Ok [[Some ((3 * ns_per_day - 17) / ns_per_day)]; [Some 0]]
  /\ 0 < (3 * ns_per_day - 17) / ns_per_day.
Proof.
  apply (delta_date_feature_single_row to_datetime_int
           [17; 0] [17; 0] 17 (3 * ns_per_day) 17 (3 * ns_per_day)).
  - repeat constructor.
  - reflexivity.
  - reflexivity.
  - vm_compute. discriminate.
  - vm_compute. discriminate.
Defined.

(** ** The hyperparameter dictionary *)

Lemma RandomForestRegressor_unexpected_keyword
    (signature kwargs : gmap string json) (k : string) :
  k ∈ dom kwargs -> k ∉ dom signature ->
  RandomForestRegressor signature kwargs = Raise "TypeError".
Proof.
  intros Hin Hout. unfold RandomForestRegressor.
  destruct (decide (dom kwargs ⊆ dom signature)) as [Hsub|_]; [|reflexivity].
  exfalso. apply Hout, Hsub, Hin.
Qed.

Lemma RandomForestRegressor_accepts (signature kwargs : gmap string json) :
  dom kwargs ⊆ dom signature ->
  RandomForestRegressor signature kwargs = Ok {| params := kwargs ∪ signature |}.
Proof.
  intros Hsub. unfold RandomForestRegressor.
  destruct (decide (dom kwargs ⊆ dom signature)); [reflexivity | contradiction].
Qed.

(** C6, as the code has it: a dictionary with a key that is not a keyword of
    the estimator's constructor makes [get_inference_pipeline] raise
    [TypeError], from the binding of the keywords in the constructor call
    itself; and [go], which hands the loaded dictionary over with only
    [random_state] set, never returns a pipeline for it.  The key is not
    dropped silently. *)
Theorem get_inference_pipeline_unexpected_keyword
    (signature rf_config : gmap string json) (k : string) :
  k ∈ dom rf_config -> k ∉ dom signature ->
  (forall max_tfidf_features,
     get_inference_pipeline signature rf_config max_tfidf_features = Raise "TypeError")
  /\ (forall train_test_split args trainval,
        exists e, go signature train_test_split args rf_config trainval = Raise e).
Proof.
  intros Hin Hout. split.
  - intros n. unfold get_inference_pipeline.
    rewrite (RandomForestRegressor_unexpected_keyword _ _ k Hin Hout).
    reflexivity.
  - intros tts args trainval. unfold go.
    destruct (pop trainval "price") as [[y X]|e]; simpl; [|eauto].
    destruct (getitem X (stratify_by args)) as [stratify|e]; simpl; [|eauto].
    destruct (tts X y (val_size args) stratify (random_seed args)) as [s|e];
      simpl; [|eauto].
    unfold get_inference_pipeline.
    rewrite (RandomForestRegressor_unexpected_keyword _ _ k); [simpl; eauto| |exact Hout].
    rewrite dom_insert. apply elem_of_union_r, Hin.
Qed.

Lemma get_inference_pipeline_unexpected_keyword_witness :
  (forall max_tfidf_features,
     get_inference_pipeline sklearn_signature {["n_trees" := JInt 50]} max_tfidf_features
     = Raise "TypeError")
  /\ (forall train_test_split args trainval,
        exists e, go sklearn_signature train_test_split args
                    {["n_trees" := JInt 50]} trainval = Raise e).
Proof.
  apply (get_inference_pipeline_unexpected_keyword sklearn_signature
           {["n_trees" := JInt 50]} "n_trees").
  - vm_compute. reflexivity.
  - vm_compute. intros H. discriminate H.
Defined.

(** C6 as stated fails: the exception that an unrecognized key raises is
    [TypeError], not [ConfigError]. *)
Lemma get_inference_pipeline_not_ConfigError :
  ("n_trees" ∈ dom ({["n_trees" := JInt 50]} : gmap string json))
  /\ ("n_trees" ∉ dom sklearn_signature)
  /\ get_inference_pipeline sklearn_signature {["n_trees" := JInt 50]} 10
     = Raise "TypeError"
  /\ get_inference_pipeline sklearn_signature {["n_trees" := JInt 50]} 10
     <> Raise "ConfigError".
Proof.
  split; [vm_compute; reflexivity|].
  split; [vm_compute; intros H; discriminate H|].
  split; [vm_compute; reflexivity|].
  vm_compute. intros H. discriminate H.
Qed.

(** ** The run *)

Section GoFacts.

Context (signature : gmap string json).
Context (train_test_split :
  gmap string (list value) -> list value -> Q -> list value -> Z -> result Split).

(** C9: whatever dictionary was loaded, with or without a [random_state] of
    its own, a run that gets as far as building the model builds the
    estimator with [random_state] equal to the [random_seed] argument: the
    entry is written over the loaded dictionary before the constructor is
    called. *)
Theorem go_random_state_is_seed
    (args : Namespace) (loaded : gmap string json)
    (trainval X : gmap string (list value)) (y stratify : list value) (s : Split) :
  "random_state" ∈ dom signature ->
  dom loaded ⊆ dom signature ->
  pop trainval "price" = Ok (y, X) ->
  getitem X (stratify_by args) = Ok stratify ->
  train_test_split X y (val_size args) stratify (random_seed args) = Ok s ->
  exists p,
    go signature train_test_split args loaded trainval = Ok p
    /\ params (random_forest (sk_pipe p)) !! "random_state"
       = Some (JInt (random_seed args))
    /\ metadata p = <["random_state" := JInt (random_seed args)]> loaded.
Proof.
  intros Hrs Hsub Hpop Hget Hsplit.
  unfold go. rewrite Hpop. simpl. rewrite Hget. simpl. rewrite Hsplit. simpl.
  unfold get_inference_pipeline.
  rewrite RandomForestRegressor_accepts.
  - simpl. eexists. split; [reflexivity|]. simpl. split; [|reflexivity].
    apply lookup_union_Some_l, lookup_insert_eq.
  - rewrite dom_insert. apply union_subseteq. split; [|exact Hsub].
    apply singleton_subseteq_l, Hrs.
Qed.

(** C8, at the default of [--stratify_by]: on a table that has a [price]
    column and no column called [none], the run stops with [KeyError] where
    the stratification column is looked up, before any split is made. *)
Theorem go_stratify_by_none_KeyError
    (args : Namespace) (loaded : gmap string json)
    (trainval : gmap string (list value)) :
  stratify_by args = stratify_by_default ->
  is_Some (trainval !! "price") ->
  trainval !! "none" = None ->
  go signature train_test_split args loaded trainval = Raise "KeyError".
Proof.
  intros Hdefault [y Hy] Hnone.
  unfold go, pop, getitem. rewrite Hy. simpl.
  rewrite Hdefault. unfold stratify_by_default.
  rewrite lookup_delete_ne by discriminate.
  rewrite Hnone. reflexivity.
Qed.

End GoFacts.

Lemma go_random_state_is_seed_witness :
  exists p,
    go sklearn_signature split_in_order
       {| trainval_artifact := "trainval_data.csv:latest"; val_size := 1 # 4;
          random_seed := 42; stratify_by := "room_type"; rf_config := "rf.json";
          max_tfidf_features := 10; output_artifact := "random_forest_export" |}
       (<["random_state" := JInt 7]> {["n_estimators" := JInt 10]}) listings = Ok p
    /\ params (random_forest (sk_pipe p)) !! "random_state" = Some (JInt 42)
    /\ metadata p
       = <["random_state" := JInt 42]>
           (<["random_state" := JInt 7]> {["n_estimators" := JInt 10]}).
Proof.
  apply (go_random_state_is_seed sklearn_signature split_in_order
           {| trainval_artifact := "trainval_data.csv:latest"; val_size := 1 # 4;
              random_seed := 42; stratify_by := "room_type"; rf_config := "rf.json";
              max_tfidf_features := 10; output_artifact := "random_forest_export" |}
           (<["random_state" := JInt 7]> {["n_estimators" := JInt 10]})
           listings (delete "price" listings)
           [number 100; number 80; number 120; number 60]
           [text "Private room"; text "Entire home/apt";
            text "Private room"; text "Entire home/apt"]
           {| X_train := take 3%nat <$> delete "price" listings;
              X_val := drop 3%nat <$> delete "price" listings;
              y_train := [number 100; number 80; number 120];
              y_val := [number 60] |}).
  - vm_compute. reflexivity.
  - apply (bool_decide_unpack _). vm_compute. exact I.
  - vm_compute. reflexivity.
  - vm_compute. reflexivity.
  - vm_compute. reflexivity.
Defined.

Lemma go_stratify_by_none_KeyError_witness :
  go sklearn_signature split_in_order default_args ∅ listings = Raise "KeyError".
Proof.
  apply (go_stratify_by_none_KeyError sklearn_signature split_in_order
           default_args ∅ listings).
  - reflexivity.
  - vm_compute. eexists. reflexivity.
  - vm_compute. reflexivity.
Defined.

(** ** The imputed one-hot group *)

Lemma prefer_cases (l : list string) (a b : string) :
  prefer l a b = a \/ prefer l a b = b.
Proof.
  unfold prefer.
  destruct (count a l <? count b l)%nat; [right; reflexivity|].
  destruct (count b l <? count a l)%nat; [left; reflexivity|].
  destruct (String.leb a b); [left | right]; reflexivity.
Qed.

Lemma prefer_count (l : list string) (a b : string) :
  (count a l <= count (prefer l a b) l)%nat
  /\ (count b l <= count (prefer l a b) l)%nat.
Proof.
  unfold prefer.
  destruct (Nat.ltb_spec (count a l) (count b l)); [lia|].
  destruct (Nat.ltb_spec (count b l) (count a l)); [lia|].
  destruct (String.leb a b); lia.
Qed.

Lemma foldl_prefer (l xs : list string) (x : string) :
  foldl (prefer l) x xs ∈ x :: xs
  /\ forall c, c ∈ x :: xs -> (count c l <= count (foldl (prefer l) x xs) l)%nat.
Proof.
  revert x. induction xs as [|y ys IH]; intros x; simpl.
  - split; [left|]. intros c Hc. apply list_elem_of_singleton in Hc as ->. lia.
  - destruct (IH (prefer l x y)) as [Hin Hmax].
    pose proof (prefer_count l x y) as [Hx Hy].
    pose proof (Hmax (prefer l x y) ltac:(left)) as Hp.
    split.
    + apply elem_of_cons in Hin as [->|Hin].
      * destruct (prefer_cases l x y) as [-> | ->]; [left | right; left].
      * right. right. exact Hin.
    + intros c Hc.
      apply elem_of_cons in Hc as [->|Hc]; [lia|].
      apply elem_of_cons in Hc as [->|Hc]; [lia|].
      apply Hmax. right. exact Hc.
Qed.

Lemma count_not_elem (c : string) (l : list string) : c ∉ l -> count c l = 0%nat.
Proof.
  intros Hc. unfold count.
  induction l as [|x l IH]; [reflexivity|].
  rewrite filter_cons.
  destruct (decide (x = c)) as [->|_].
  - exfalso. apply Hc. left.
  - apply IH. intros Hin. apply Hc. right. exact Hin.
Qed.

(** The statistic of the imputer is an observed value, and no value is
    observed more often. *)
Lemma most_frequent_value_spec (l : list string) :
  l <> [] ->
  exists v, most_frequent_value l = Some v
            /\ v ∈ l
            /\ forall c, (count c l <= count v l)%nat.
Proof.
  destruct l as [|x xs]; [congruence|]. intros _.
  destruct (foldl_prefer (x :: xs) xs x) as [Hin Hmax].
  eexists. split; [reflexivity|]. split; [exact Hin|].
  intros c. destruct (decide (c ∈ x :: xs)) as [Hc|Hc].
  - apply Hmax, Hc.
  - rewrite (count_not_elem c) by exact Hc. lia.
Qed.

Lemma preferred_trans (l : list string) (r x c : string) :
  preferred l r x -> preferred l x c -> preferred l r c.
Proof.
  unfold preferred. intros [Hrx|[Hrx Hle]] [Hxc|[Hxc Hle']].
  - left. lia.
  - left. lia.
  - left. lia.
  - right. split; [lia|]. transitivity x; assumption.
Qed.

Lemma prefer_preferred (l : list string) (a b : string) :
  preferred l (prefer l a b) a /\ preferred l (prefer l a b) b.
Proof.
  unfold prefer, preferred.
  destruct (Nat.ltb_spec (count a l) (count b l)).
  { split; [left; lia | right; split; reflexivity]. }
  destruct (Nat.ltb_spec (count b l) (count a l)).
  { split; [right; split; reflexivity | left; lia]. }
  destruct (String.leb a b) eqn:Hab.
  - split; right; (split; [lia|]); [reflexivity|].
    unfold String.le. rewrite Hab. exact I.
  - split; right; (split; [lia|]); [|reflexivity].
    destruct (total String.le a b) as [Hle|Hle]; [|exact Hle].
    unfold String.le in Hle. rewrite Hab in Hle. destruct Hle.
Qed.

Lemma foldl_prefer_preferred (l xs : list string) (x : string) :
  forall c, c ∈ x :: xs -> preferred l (foldl (prefer l) x xs) c.
Proof.
  revert x. induction xs as [|y ys IH]; intros x c Hc; simpl.
  - apply list_elem_of_singleton in Hc as ->. right. split; reflexivity.
  - pose proof (prefer_preferred l x y) as [Hx Hy].
    pose proof (IH (prefer l x y) (prefer l x y) ltac:(left)) as Hp.
    apply elem_of_cons in Hc as [->|Hc]; [exact (preferred_trans _ _ _ _ Hp Hx)|].
    apply elem_of_cons in Hc as [->|Hc]; [exact (preferred_trans _ _ _ _ Hp Hy)|].
    apply IH. right. exact Hc.
Qed.

(** Among the values observed most often the statistic is the smallest. *)
Lemma most_frequent_value_smallest (l : list string) (v c : string) :
  most_frequent_value l = Some v -> c ∈ l -> count c l = count v l -> String.le v c.
Proof.
  destruct l as [|x xs]; [discriminate|]. intros Hv Hc Hcount.
  injection Hv as <-.
  destruct (foldl_prefer_preferred (x :: xs) xs x c Hc) as [Hlt|[_ Hle]];
    [lia | exact Hle].
Qed.

Lemma elem_of_observed (col : list (option string)) (c : string) :
  c ∈ observed col <-> Some c ∈ col.
Proof.
  unfold observed. rewrite list_elem_of_omap. split.
  - intros (x & Hx & Hid). simpl in Hid. subst x. exact Hx.
  - intros Hc. exists (Some c). split; [exact Hc | reflexivity].
Qed.

(** Filling the gaps with an observed value adds no category and loses
    none. *)
Lemma elem_of_impute (v : string) (col : list (option string)) (c : string) :
  v ∈ observed col -> (c ∈ impute v col <-> c ∈ observed col).
Proof.
  intros Hv. unfold impute. rewrite list_elem_of_fmap. split.
  - intros ([x|] & -> & Hx); simpl.
    + apply elem_of_observed, Hx.
    + exact Hv.
  - intros Hc. exists (Some c). split; [reflexivity|].
    apply elem_of_observed, Hc.
Qed.

Lemma unique_sorted_Permutation (l : list string) :
  unique_sorted l ≡ₚ remove_dups l.
Proof. apply merge_sort_Permutation. Qed.

Lemma elem_of_unique_sorted (l : list string) (c : string) :
  c ∈ unique_sorted l <-> c ∈ l.
Proof. rewrite unique_sorted_Permutation. apply elem_of_remove_dups. Qed.

Lemma unique_sorted_NoDup (l : list string) : NoDup (unique_sorted l).
Proof. rewrite unique_sorted_Permutation. apply NoDup_remove_dups. Qed.

(** The fitted categories depend on the set of values only. *)
Lemma unique_sorted_same_elements (l l' : list string) :
  (forall c, c ∈ l <-> c ∈ l') -> unique_sorted l = unique_sorted l'.
Proof.
  intros Hsame.
  apply (Sorted_unique String.le).
  - apply Sorted_merge_sort; apply _.
  - apply Sorted_merge_sort; apply _.
  - rewrite !unique_sorted_Permutation.
    apply NoDup_Permutation; [apply NoDup_remove_dups..|].
    intros c. rewrite !elem_of_remove_dups. apply Hsame.
Qed.

Lemma one_hot_length (cats : list string) (c : string) :
  length (one_hot cats c) = length cats.
Proof. unfold one_hot. apply length_map. Qed.

Lemma one_hot_lookup (cats : list string) (c : string) (j : nat) :
  cats !! j = Some c -> one_hot cats c !! j = Some 1%Q.
Proof.
  intros Hj. unfold one_hot. rewrite list_lookup_fmap, Hj. simpl.
  destruct (decide (c = c)); [reflexivity | congruence].
Qed.

Lemma one_hot_lookup_ne (cats : list string) (c k : string) (j : nat) :
  cats !! j = Some k -> k <> c -> one_hot cats c !! j = Some 0%Q.
Proof.
  intros Hj Hne. unfold one_hot. rewrite list_lookup_fmap, Hj. simpl.
  destruct (decide (k = c)); [congruence | reflexivity].
Qed.

(** The row that [one_hot] builds for a fitted category is its encoding. *)
Lemma one_hot_encodes (f : FittedOneHot) (c : string) :
  NoDup (categories_ f) -> c ∈ categories_ f ->
  encodes f c (one_hot (categories_ f) c).
Proof.
  intros Hnodup Hc. split; [apply one_hot_length|].
  unfold column_of.
  destruct (list_find_elem_of (fun k => k = c) (categories_ f) c Hc)
    as [[j k] Hfind]; [reflexivity|].
  rewrite Hfind. simpl. exists j.
  apply list_find_Some in Hfind as (Hj & -> & _).
  split; [reflexivity|]. split; [exact Hj|].
  split; [apply one_hot_lookup, Hj|].
  intros j' Hne Hlt.
  destruct (lookup_lt_is_Some_2 (categories_ f) j' Hlt) as [k' Hk'].
  apply (one_hot_lookup_ne _ _ k' _ Hk').
  intros ->. apply Hne. exact (NoDup_lookup _ _ _ _ Hnodup Hk' Hj).
Qed.

Lemma transform_categorical_rows_given (f : FittedOneHot) (col : list (option string)) :
  col <> [] ->
  transform_categorical f col = mapM (encode f) (impute (statistics_ f) col).
Proof. destruct col; [congruence | reflexivity]. Qed.

Lemma transform_categorical_known (f : FittedOneHot) (col : list (option string)) :
  col <> [] ->
  (forall c, c ∈ impute (statistics_ f) col -> c ∈ categories_ f) ->
  transform_categorical f col
  = Ok (map (one_hot (categories_ f)) (impute (statistics_ f) col)).
Proof.
  intros Hne Hknown. rewrite transform_categorical_rows_given by exact Hne.
  apply mapM_Forall2.
  induction (impute (statistics_ f) col) as [|c l IH]; simpl; constructor.
  - unfold encode. destruct (decide (c ∈ categories_ f)) as [_|Hc]; [reflexivity|].
    exfalso. apply Hc, Hknown. left.
  - apply IH. intros c' Hc'. apply Hknown. right. exact Hc'.
Qed.

Lemma mapM_Raise {A B : Type} (f : A -> result B) (l : list A) (a : A) (e : exn) :
  a ∈ l -> (forall x, x ∈ l -> f x = Raise e \/ exists y, f x = Ok y) ->
  f a = Raise e -> mapM f l = Raise e.
Proof.
  intros Hin Hall Ha.
  induction l as [|x l IH]; [inversion Hin|].
  simpl. destruct (Hall x ltac:(left)) as [Hx|[y Hy]].
  - rewrite Hx. reflexivity.
  - rewrite Hy. simpl.
    apply elem_of_cons in Hin as [->|Hin]; [congruence|].
    rewrite IH; [reflexivity|exact Hin|].
    intros x' Hx'. apply Hall. right. exact Hx'.
Qed.

Lemma fit_categorical_Ok (col : list (option string)) (f : FittedOneHot) :
  fit_categorical non_ordinal_categorical_preproc col = Ok f ->
  most_frequent_value (observed col) = Some (statistics_ f)
  /\ handle_unknown_ f = unknown_error
  /\ categories_ f = unique_sorted (impute (statistics_ f) col).
Proof.
  unfold fit_categorical, non_ordinal_categorical_preproc. intros Hfit.
  destruct (most_frequent_value (observed col)) as [v|]; [|discriminate].
  injection Hfit as <-. simpl. repeat split.
Qed.

Lemma statistics_observed (col : list (option string)) (f : FittedOneHot) :
  fit_categorical non_ordinal_categorical_preproc col = Ok f ->
  statistics_ f ∈ observed col.
Proof.
  intros Hfit. apply fit_categorical_Ok in Hfit as (Hv & _ & _).
  destruct (observed col) as [|x xs] eqn:Hobs; [discriminate|].
  destruct (most_frequent_value_spec (x :: xs)) as (v & Hv' & Hin & _); [congruence|].
  rewrite Hv in Hv'. injection Hv' as <-. exact Hin.
Qed.

(** The fitted categories are the distinct observed values, sorted. *)
Lemma fit_categorical_categories (col : list (option string)) (f : FittedOneHot) :
  fit_categorical non_ordinal_categorical_preproc col = Ok f ->
  categories_ f = unique_sorted (observed col).
Proof.
  intros Hfit.
  pose proof (statistics_observed col f Hfit) as Hv.
  apply fit_categorical_Ok in Hfit as (_ & _ & ->).
  apply unique_sorted_same_elements.
  intros c. apply elem_of_impute, Hv.
Qed.

Lemma fit_categorical_width (col : list (option string)) (f : FittedOneHot) :
  fit_categorical non_ordinal_categorical_preproc col = Ok f ->
  width f = length (remove_dups (observed col)).
Proof.
  intros Hfit. unfold width.
  rewrite (fit_categorical_categories col f Hfit), unique_sorted_Permutation.
  reflexivity.
Qed.

(** C4: a training column in which [k] distinct categories are observed
    ([k] at least 1, so that there is a most frequent one) fits.  The
    statistic of the imputer is the category observed most often, the
    smallest one among equals.  The encoder has exactly [k] output columns,
    one for each observed category and for nothing else, in sorted order.
    The training column is encoded row by row: a row that holds a category
    gets the encoding of that category, a row whose value is missing gets
    the encoding of the statistic, and every encoded row is [k] wide.  The
    assignment of columns to categories is the same for every fit on
    training data with the same observed categories, in particular for a
    second fit on the same data. *)
Theorem fit_categorical_one_column_per_category (col : list (option string)) :
  observed col <> [] ->
  exists f rows,
    fit_categorical non_ordinal_categorical_preproc col = Ok f
    /\ statistics_ f ∈ observed col
    /\ (forall c, (count c (observed col) <= count (statistics_ f) (observed col))%nat)
    /\ (forall c, Some c ∈ col ->
          count c (observed col) = count (statistics_ f) (observed col) ->
          String.le (statistics_ f) c)
    /\ transform_categorical f col = Ok rows
    /\ rows = map (one_hot (categories_ f)) (impute (statistics_ f) col)
    /\ length rows = length col
    /\ (forall i, col !! i = Some None ->
          exists r, rows !! i = Some r /\ encodes f (statistics_ f) r)
    /\ (forall i c, col !! i = Some (Some c) ->
          exists r, rows !! i = Some r /\ encodes f c r)
    /\ width f = length (remove_dups (observed col))
    /\ Forall (fun r => length r = length (remove_dups (observed col))) rows
    /\ (forall c, c ∈ categories_ f <-> Some c ∈ col)
    /\ NoDup (categories_ f)
    /\ Sorted String.le (categories_ f)
    /\ (forall c, c ∈ observed col ->
          exists j, column_of f c = Some j /\ categories_ f !! j = Some c)
    /\ (forall col' f',
          (forall c, c ∈ observed col' <-> c ∈ observed col) ->
          fit_categorical non_ordinal_categorical_preproc col' = Ok f' ->
          forall c, column_of f' c = column_of f c).
Proof.
  intros Hobs.
  destruct (most_frequent_value_spec (observed col) Hobs) as (v & Hv & Hin & Hmax).
  assert (Hfit : fit_categorical non_ordinal_categorical_preproc col
                 = Ok {| statistics_ := v; handle_unknown_ := handle_unknown_default;
                         categories_ := unique_sorted (impute v col) |}).
  { unfold fit_categorical, non_ordinal_categorical_preproc. rewrite Hv. reflexivity. }
  set (f := {| statistics_ := v; handle_unknown_ := handle_unknown_default;
               categories_ := unique_sorted (impute v col) |}) in *.
  assert (Hne : col <> []) by (intros ->; apply Hobs; reflexivity).
  pose proof (fit_categorical_categories _ _ Hfit) as Hcats.
  pose proof (fit_categorical_width _ _ Hfit) as Hwidth.
  assert (Hnodup : NoDup (categories_ f)) by apply unique_sorted_NoDup.
  assert (Hmem : forall c, c ∈ categories_ f <-> Some c ∈ col).
  { intros c. rewrite Hcats, elem_of_unique_sorted. apply elem_of_observed. }
  assert (Hstat : statistics_ f ∈ categories_ f).
  { apply Hmem, elem_of_observed, Hin. }
  exists f, (map (one_hot (categories_ f)) (impute (statistics_ f) col)).
  split; [exact Hfit|].
  split; [exact Hin|]. split; [exact Hmax|].
  split.
  { intros c Hc Hcount.
    apply (most_frequent_value_smallest (observed col) v c Hv);
      [apply elem_of_observed, Hc | exact Hcount]. }
  split.
  { apply transform_categorical_known; [exact Hne|].
    intros c Hc. apply elem_of_unique_sorted, Hc. }
  split; [reflexivity|].
  split; [unfold impute; rewrite !length_map; reflexivity|].
  split.
  { intros i Hi. eexists. split.
    - unfold impute. rewrite !list_lookup_fmap, Hi. reflexivity.
    - apply one_hot_encodes; assumption. }
  split.
  { intros i c Hi. eexists. split.
    - unfold impute. rewrite !list_lookup_fmap, Hi. reflexivity.
    - apply one_hot_encodes; [exact Hnodup|].
      apply Hmem, list_elem_of_lookup. eauto. }
  split; [exact Hwidth|].
  split.
  { apply Forall_forall. intros r Hr.
    apply list_elem_of_fmap in Hr as (c & -> & _).
    rewrite one_hot_length. exact Hwidth. }
  split; [exact Hmem|].
  split; [exact Hnodup|].
  split; [apply Sorted_merge_sort; apply _|].
  split.
  - intros c Hc. unfold column_of.
    destruct (list_find_elem_of (fun k => k = c) (categories_ f) c)
      as [[j k] Hfind]; [|reflexivity|].
    { apply Hmem, elem_of_observed, Hc. }
    rewrite Hfind. simpl. exists j. split; [reflexivity|].
    apply list_find_Some in Hfind as (Hj & -> & _). exact Hj.
  - intros col' f' Hsame Hfit' c. unfold column_of.
    rewrite (fit_categorical_categories _ _ Hfit'), Hcats.
    rewrite (unique_sorted_same_elements (observed col') (observed col) Hsame).
    reflexivity.
Qed.

Lemma fit_categorical_one_column_per_category_witness :
  exists f rows,
    fit_categorical non_ordinal_categorical_preproc training_column = Ok f
    /\ statistics_ f ∈ observed training_column
    /\ (forall c, (count c (observed training_column)
                   <= count (statistics_ f) (observed training_column))%nat)
    /\ (forall c, Some c ∈ training_column ->
          count c (observed training_column)
          = count (statistics_ f) (observed training_column) ->
          String.le (statistics_ f) c)
    /\ transform_categorical f training_column = Ok rows
    /\ rows = map (one_hot (categories_ f)) (impute (statistics_ f) training_column)
    /\ length rows = length training_column
    /\ (forall i, training_column !! i = Some None ->
          exists r, rows !! i = Some r /\ encodes f (statistics_ f) r)
    /\ (forall i c, training_column !! i = Some (Some c) ->
          exists r, rows !! i = Some r /\ encodes f c r)
    /\ width f = length (remove_dups (observed training_column))
    /\ Forall (fun r => length r = length (remove_dups (observed training_column)))
              rows
    /\ (forall c, c ∈ categories_ f <-> Some c ∈ training_column)
    /\ NoDup (categories_ f)
    /\ Sorted String.le (categories_ f)
    /\ (forall c, c ∈ observed training_column ->
          exists j, column_of f c = Some j /\ categories_ f !! j = Some c)
    /\ (forall col' f',
          (forall c, c ∈ observed col' <-> c ∈ observed training_column) ->
          fit_categorical non_ordinal_categorical_preproc col' = Ok f' ->
          forall c, column_of f' c = column_of f c).
Proof.
  apply (fit_categorical_one_column_per_category training_column).
  vm_compute. discriminate.
Defined.

(** The fit of [training_column], run: the missing value is encoded as
    [Queens], the more frequent of the two categories. *)
Example fit_training_column :
  exists f,
    fit_categorical non_ordinal_categorical_preproc training_column = Ok f
    /\ categories_ f = ["Bronx"; "Queens"]
    /\ transform_categorical f training_column
       = Ok [[0; 1]; [1; 0]; [0; 1]; [0; 1]]%Q.
Proof.
  eexists. split; [vm_compute; reflexivity|]. split; reflexivity.
Qed.

(** C7 as stated fails: a category that the encoder has not been fitted on
    raises [ValueError] at transform time. *)
Lemma transform_categorical_unknown_raises :
  exists f,
    fit_categorical non_ordinal_categorical_preproc training_column = Ok f
    /\ width f = 2%nat
    /\ ("Manhattan" ∉ categories_ f)
    /\ transform_categorical f [Some "Bronx"; Some "Manhattan"] = Raise "ValueError".
Proof.
  eexists. split; [vm_compute; reflexivity|].
  split; [reflexivity|].
  split; [|reflexivity].
  cbn [categories_]. intros Hin.
  apply list_elem_of_In in Hin. simpl in Hin.
  destruct Hin as [H|[H|[]]]; discriminate H.
Qed.

(** C7, as the code has it: the encoder is built with the default policy for
    unknown categories, which is to raise.  For every fitted pipeline, a
    batch that holds a category that was not observed in the training column
    makes the transform raise [ValueError]; the width of the fitted encoder
    is the number of categories observed at fit time, as before. *)
Theorem transform_categorical_unknown_category
    (train batch : list (option string)) (f : FittedOneHot) (c : string) :
  fit_categorical non_ordinal_categorical_preproc train = Ok f ->
  Some c ∈ batch ->
  c ∉ observed train ->
  transform_categorical f batch = Raise "ValueError"
  /\ width f = length (remove_dups (observed train)).
Proof.
  intros Hfit Hc Hunseen.
  split; [|apply fit_categorical_width, Hfit].
  pose proof (fit_categorical_categories _ _ Hfit) as Hcats.
  pose proof (fit_categorical_Ok _ _ Hfit) as (_ & Hpolicy & _).
  rewrite transform_categorical_rows_given by (intros ->; inversion Hc).
  apply (mapM_Raise _ _ c).
  - unfold impute. apply list_elem_of_fmap. exists (Some c). split; [reflexivity|exact Hc].
  - intros x _. unfold encode. rewrite Hpolicy.
    destruct (decide (x ∈ categories_ f)); [right; eauto | left; reflexivity].
  - unfold encode. rewrite Hpolicy.
    destruct (decide (c ∈ categories_ f)) as [Hin|_]; [|reflexivity].
    exfalso. apply Hunseen.
    rewrite Hcats in Hin. apply (proj1 (elem_of_unique_sorted _ _)), Hin.
Qed.

Lemma transform_categorical_unknown_category_witness :
  transform_categorical
    {| statistics_ := "Queens"; handle_unknown_ := unknown_error;
       categories_ := ["Bronx"; "Queens"] |}
    [Some "Bronx"; Some "Manhattan"] = Raise "ValueError"
  /\ width {| statistics_ := "Queens"; handle_unknown_ := unknown_error;
              categories_ := ["Bronx"; "Queens"] |}
     = length (remove_dups (observed training_column)).
Proof.
  apply (transform_categorical_unknown_category
           training_column
           [Some "Bronx"; Some "Manhattan"]
           {| statistics_ := "Queens"; handle_unknown_ := unknown_error;
              categories_ := ["Bronx"; "Queens"] |}
           "Manhattan").
  - vm_compute. reflexivity.
  - apply (bool_decide_unpack _). vm_compute. exact I.
  - apply (bool_decide_unpack _). vm_compute. exact I.
Defined.

(** * Further properties *)

(** ** The bars of the importance plot *)

Lemma slice_bound_of_nat (n i : nat) :
  slice_bound n (Z.of_nat i) = Nat.min i n.
Proof.
  unfold slice_bound.
  destruct (Z.ltb_spec (Z.of_nat i) 0) as [Hneg|_]; lia.
Qed.

Lemma heights_unfold (raw : list Q) (names : list string) :
  names <> [] ->
  heights (plot_feature_importance raw names)
  = take (Nat.min (length names - 1) (length raw)) raw
    ++ [sum (drop (Nat.min (length names - 1) (length raw)) raw)].
Proof.
  intros Hne. unfold plot_feature_importance, slice_to, slice_from, len. simpl.
  replace (Z.of_nat (length names) - 1) with (Z.of_nat (length names - 1)).
  - rewrite slice_bound_of_nat. reflexivity.
  - destruct names; [congruence | simpl; lia].
Qed.

(** The function returns its figure exactly when the importance array has
    at least as many entries as there are names before the last, and the
    figure then has one bar and one tick per name; with fewer entries the
    labels do not match the ticks and the function raises [ValueError]. *)
Theorem plot_feature_importance_figure_bars (raw : list Q) (names : list string) :
  names <> [] ->
  ((length names - 1 <= length raw)%nat ->
     plot_feature_importance_figure raw names
     = Ok (plot_feature_importance raw names)
     /\ length (heights (plot_feature_importance raw names)) = length names
     /\ xticks (plot_feature_importance raw names) = seq 0 (length names)
     /\ xticklabels (plot_feature_importance raw names) = names)
  /\ ((length raw < length names - 1)%nat ->
        plot_feature_importance_figure raw names = Raise "ValueError").
Proof.
  intros Hne.
  assert (Hpos : (0 < length names)%nat) by (destruct names; [congruence | simpl; lia]).
  assert (Hlen : length (heights (plot_feature_importance raw names))
                 = S (Nat.min (length names - 1) (length raw))).
  { rewrite heights_unfold by exact Hne.
    rewrite length_app, length_take. simpl. lia. }
  assert (Hticks : xticks (plot_feature_importance raw names)
                   = seq 0 (S (Nat.min (length names - 1) (length raw)))).
  { unfold plot_feature_importance in *. simpl in *. rewrite Hlen. reflexivity. }
  assert (Hfig : plot_feature_importance_figure raw names
                 = if (negb (S (Nat.min (length names - 1) (length raw))
                             =? length names)%nat
                       && negb (length names =? 0)%nat)%bool
                   then Raise "ValueError"
                   else Ok (plot_feature_importance raw names)).
  { unfold plot_feature_importance_figure, set_xticklabels.
    rewrite Hticks, length_seq.
    change (xticklabels (plot_feature_importance raw names)) with names.
    destruct (negb _ && negb _)%bool; reflexivity. }
  split.
  - intros Hle. rewrite Hfig, Hlen, Hticks, Nat.min_l by exact Hle.
    replace (S (length names - 1)) with (length names) by lia.
    rewrite Nat.eqb_refl. simpl. repeat split; reflexivity.
  - intros Hlt. rewrite Hfig, Nat.min_r by lia.
    destruct (Nat.eqb_spec (S (length raw)) (length names)); [lia|].
    destruct (Nat.eqb_spec (length names) 0); [lia|].
    reflexivity.
Qed.

Lemma plot_feature_importance_figure_bars_witness :
  ((length processed_features - 1 <= length importances_two_categories)%nat ->
     plot_feature_importance_figure importances_two_categories processed_features
     = Ok (plot_feature_importance importances_two_categories processed_features)
     /\ length (heights (plot_feature_importance importances_two_categories
                           processed_features)) = length processed_features
     /\ xticks (plot_feature_importance importances_two_categories processed_features)
        = seq 0 (length processed_features)
     /\ xticklabels (plot_feature_importance importances_two_categories
                       processed_features) = processed_features)
  /\ ((length importances_two_categories < length processed_features - 1)%nat ->
        plot_feature_importance_figure importances_two_categories processed_features
        = Raise "ValueError").
Proof.
  apply (plot_feature_importance_figure_bars importances_two_categories
           processed_features).
  vm_compute. discriminate.
Defined.

(** Every bar but the last is one raw entry, taken over unchanged and in
    position; the last bar is the sum of all the raw entries from that
    position on. *)
Theorem plot_feature_importance_bars (raw : list Q) (names : list string) :
  (length names - 1 <= length raw)%nat ->
  names <> [] ->
  (forall i, (i < length names - 1)%nat ->
     heights (plot_feature_importance raw names) !! i = raw !! i)
  /\ heights (plot_feature_importance raw names) !! (length names - 1)%nat
     = Some (sum (drop (length names - 1) raw)).
Proof.
  intros Hle Hne. rewrite heights_unfold by exact Hne.
  rewrite Nat.min_l by exact Hle. split.
  - intros i Hi. rewrite lookup_app_l by (rewrite length_take; lia).
    apply lookup_take_lt. exact Hi.
  - rewrite lookup_app_r by (rewrite length_take; lia).
    rewrite length_take, Nat.min_l by exact Hle.
    rewrite Nat.sub_diag. reflexivity.
Qed.

Lemma plot_feature_importance_bars_witness :
  (forall i, (i < length processed_features - 1)%nat ->
     heights (plot_feature_importance importances_two_categories processed_features) !! i
     = importances_two_categories !! i)
  /\ heights (plot_feature_importance importances_two_categories processed_features)
       !! (length processed_features - 1)%nat
     = Some (sum (drop (length processed_features - 1) importances_two_categories)).
Proof.
  apply (plot_feature_importance_bars importances_two_categories processed_features).
  - vm_compute. lia.
  - vm_compute. discriminate.
Defined.

Lemma plot_feature_importance_one_category_witness :
  Forall2 Qeq
    (heights (plot_feature_importance importances_one_category processed_features))
    (reduce_by_widths (feature_widths 1 2) importances_one_category).
Proof.
  apply (plot_feature_importance_one_category importances_one_category 2).
  reflexivity.
Defined.

Lemma reduce_by_widths_app (ws ws' : list nat) (raw : list Q) :
  reduce_by_widths (ws ++ ws') raw
  = reduce_by_widths ws raw
    ++ reduce_by_widths ws' (drop (fold_right Nat.add 0%nat ws) raw).
Proof.
  revert raw. induction ws as [|w ws IH]; intros raw; simpl.
  - rewrite drop_0. reflexivity.
  - rewrite IH, drop_drop. reflexivity.
Qed.

Lemma reduce_by_widths_length (ws : list nat) (raw : list Q) :
  length (reduce_by_widths ws raw) = length ws.
Proof.
  revert raw. induction ws as [|w ws IH]; intros raw; simpl; [reflexivity|].
  rewrite IH. reflexivity.
Qed.

(** With [k] fitted one-hot categories the text feature's own raw entries
    start at position [9 + k], but the last bar sums from position 10 on:
    it is the sum, by the same fold, of the [k - 1] raw entries before the
    text feature's, which belong to the numeric and date features, followed
    by the text feature's own entries. *)
Theorem plot_feature_importance_name_bar_excess (raw : list Q) (k t : nat) :
  (1 <= k)%nat ->
  length raw = (9 + k + t)%nat ->
  exists foreign own,
    foreign = take (k - 1) (drop 10 raw)
    /\ length foreign = (k - 1)%nat
    /\ own = drop (9 + k) raw
    /\ length own = t
    /\ heights (plot_feature_importance raw processed_features) !! 10%nat
       = Some (sum (foreign ++ own))
    /\ reduce_by_widths (feature_widths k t) raw !! 10%nat = Some (sum own).
Proof.
  intros Hk Hlen.
  exists (take (k - 1) (drop 10 raw)), (drop (9 + k) raw).
  split; [reflexivity|].
  split; [rewrite length_take, length_drop; lia|].
  split; [reflexivity|].
  split; [rewrite length_drop; lia|].
  split.
  - rewrite heights_unfold by discriminate.
    change (length processed_features - 1)%nat with 10%nat.
    rewrite Nat.min_l by lia.
    rewrite lookup_app_r by (rewrite length_take; lia).
    rewrite length_take, Nat.min_l by lia.
    rewrite Nat.sub_diag. simpl. do 2 f_equal.
    rewrite <- (take_drop (k - 1) (drop 10 raw)) at 1.
    rewrite drop_drop. do 2 f_equal. lia.
  - change (feature_widths k t)
      with (([1%nat; k] ++ repeat 1%nat 7 ++ [1%nat]) ++ [t]).
    rewrite reduce_by_widths_app.
    rewrite lookup_app_r by (rewrite reduce_by_widths_length; simpl; lia).
    rewrite reduce_by_widths_length.
    change (length ([1%nat; k] ++ repeat 1%nat 7 ++ [1%nat])) with 10%nat.
    simpl.
    replace (S (k + 8)) with (9 + k)%nat by lia.
    rewrite take_ge by (rewrite length_drop; lia).
    reflexivity.
Qed.

Lemma plot_feature_importance_name_bar_excess_witness :
  exists foreign own,
    foreign = take (2 - 1) (drop 10 importances_two_categories)
    /\ length foreign = (2 - 1)%nat
    /\ own = drop (9 + 2) importances_two_categories
    /\ length own = 2%nat
    /\ heights (plot_feature_importance importances_two_categories
                  processed_features) !! 10%nat
       = Some (sum (foreign ++ own))
    /\ reduce_by_widths (feature_widths 2 2) importances_two_categories !! 10%nat
       = Some (sum own).
Proof.
  apply (plot_feature_importance_name_bar_excess importances_two_categories 2 2).
  - lia.
  - reflexivity.
Defined.

Lemma sum_nonneg (l : list Q) : Forall (fun x => 0 <= x)%Q l -> (0 <= sum l)%Q.
Proof.
  induction 1 as [|x l Hx _ IH].
  - unfold sum. simpl. apply Qle_refl.
  - rewrite sum_cons.
    apply (Qle_trans _ (0 + 0)); [rewrite Qplus_0_l; apply Qle_refl|].
    apply Qplus_le_compat; assumption.
Qed.

Lemma sum_take_le (n : nat) (l : list Q) :
  Forall (fun x => 0 <= x)%Q l -> (sum (take n l) <= sum l)%Q.
Proof.
  intros Hl. rewrite <- (sum_take_drop n l).
  rewrite <- (Qplus_0_r (sum (take n l))) at 1.
  apply Qplus_le_compat; [apply Qle_refl|].
  apply sum_nonneg, Forall_drop, Hl.
Qed.

(** Importances that are not negative give bars that are not negative, and
    no bar is higher than the sum of all importances. *)
Theorem plot_feature_importance_bars_bounded (raw : list Q) (names : list string) :
  Forall (fun x => 0 <= x)%Q raw ->
  Forall (fun h => 0 <= h /\ h <= sum raw)%Q
         (heights (plot_feature_importance raw names)).
Proof.
  intros Hraw.
  unfold plot_feature_importance, slice_to, slice_from. simpl.
  set (b := slice_bound (length raw) (len names - 1)).
  apply Forall_app. split.
  - apply Forall_forall. intros x Hx.
    assert (Hx' : x ∈ raw) by (apply (subseteq_take b raw), Hx).
    split.
    + rewrite Forall_forall in Hraw. apply Hraw, Hx'.
    + apply list_elem_of_split in Hx' as (l1 & l2 & ->).
      rewrite sum_app, sum_cons.
      apply Forall_app in Hraw as [H1 H2].
      inversion H2 as [|? ? Hx0 H2']; subst.
      pose proof (sum_nonneg _ H1). pose proof (sum_nonneg _ H2').
      rewrite <- (Qplus_0_l x) at 1. rewrite <- (Qplus_0_r (0 + x)).
      rewrite Qplus_assoc.
      apply Qplus_le_compat; [|assumption].
      apply Qplus_le_compat; [assumption | apply Qle_refl].
  - constructor; [|constructor]. split.
    + apply sum_nonneg, Forall_drop, Hraw.
    + rewrite <- (sum_take_drop b raw).
      rewrite <- (Qplus_0_l (sum (drop b raw))) at 1.
      apply Qplus_le_compat; [|apply Qle_refl].
      apply sum_nonneg, Forall_take, Hraw.
Qed.

Lemma plot_feature_importance_bars_bounded_witness :
  Forall (fun h => 0 <= h /\ h <= sum importances_two_categories)%Q
         (heights (plot_feature_importance importances_two_categories processed_features)).
Proof.
  apply (plot_feature_importance_bars_bounded importances_two_categories
           processed_features).
  repeat constructor; vm_compute; discriminate.
Defined.

(** ** The date transform on batches with missing or unreadable values *)

Lemma mapM_Raise_inv {A B : Type} (f : A -> result B) (l : list A) (e : exn) :
  mapM f l = Raise e -> exists a, a ∈ l /\ f a = Raise e.
Proof.
  induction l as [|x l IH]; simpl; [discriminate|].
  destruct (f x) as [y|e'] eqn:Hx; simpl.
  - destruct (mapM f l) as [ys|e'']; simpl; [discriminate|].
    intros Heq. injection Heq as ->.
    destruct IH as (a & Ha & Hfa); [reflexivity|].
    exists a. split; [right; exact Ha | exact Hfa].
  - intros Heq. injection Heq as ->.
    exists x. split; [left | exact Hx].
Qed.

Lemma mapM_not_Ok {A B : Type} (f : A -> result B) (l : list A) (a : A) (e : exn) :
  a ∈ l -> f a = Raise e -> exists e', mapM f l = Raise e'.
Proof.
  intros Hin Ha. induction l as [|x l IH]; [inversion Hin|].
  simpl. destruct (f x) as [y|e'] eqn:Hx; simpl; [|eauto].
  apply elem_of_cons in Hin as [->|Hin]; [congruence|].
  destruct (IH Hin) as [e'' ->]. simpl. eauto.
Qed.

Section DeltaDateMissing.

Context {cell : Type} (to_datetime : cell -> result Timestamp).

Lemma sanitized_columns_length (dates : list (list cell))
    (tss : list (list Timestamp)) (c : nat) :
  Forall (fun r => length r = c) dates ->
  Forall2 (Forall2 (fun x t => to_datetime x = Ok t)) dates tss ->
  Forall (fun col => length col = length dates)
         (map (fun j => recency_days (nths j tss)) (seq 0 (ncols dates))).
Proof.
  intros Hrect Hparse.
  pose proof (rectangular_Forall2 _ _ _ _ Hparse Hrect) as Hrect'.
  pose proof (Forall2_length _ _ _ Hparse) as Hlen.
  apply Forall_forall. intros col Hcol.
  apply list_elem_of_fmap in Hcol as (j & -> & Hj).
  apply elem_of_seq in Hj.
  destruct dates as [|r dates]; [simpl in Hj; lia|].
  rewrite (ncols_rectangular (r :: dates) c) in Hj by (assumption || simpl; lia).
  rewrite recency_days_length, (nths_length _ c); [lia|assumption|lia].
Qed.

(** The cells of the result, for a batch that is read without an exception
    and whose columns are close enough. *)
Lemma sanitized_cell (dates : list (list cell)) (tss : list (list Timestamp))
    (c i j : nat) (x : Timestamp) :
  Forall (fun r => length r = c) dates ->
  Forall2 (Forall2 (fun x t => to_datetime x = Ok t)) dates tss ->
  cell_at tss i j = Some x ->
  cell_at (to_numpy {| index_len := length dates;
                       columns := map (fun j => recency_days (nths j tss))
                                      (seq 0 (ncols dates)) |}) i j
  = Some (match Series_max (nths j tss), x with
          | Some m, Some t => Some ((m - t) / ns_per_day)
          | _, _ => None
          end).
Proof.
  intros Hrect Hparse Hcell.
  pose proof (sanitized_columns_length dates tss c Hrect Hparse) as Hcols.
  pose proof (rectangular_Forall2 _ _ _ _ Hparse Hrect) as Hrect'.
  pose proof (Forall2_length _ _ _ Hparse) as Hlen.
  destruct (cell_at_bounds _ _ _ _ _ Hrect' Hcell) as [Hi Hj].
  unfold to_numpy. cbn [index_len columns]. unfold cell_at at 1.
  rewrite list_lookup_fmap, lookup_seq_lt by lia. simpl.
  rewrite (nths_lookup _ (length dates)) by (assumption || lia).
  unfold cell_at at 1.
  rewrite (ncols_rectangular dates c) by (assumption || lia).
  rewrite list_lookup_fmap, lookup_seq_lt by lia. simpl.
  rewrite recency_days_lookup_gen, (nths_lookup _ c) by assumption.
  unfold Timestamp in *. rewrite Hcell. reflexivity.
Qed.

(** When the dates of each column are close enough, the transform keeps the
    shape of the batch: as many rows as it was given, and as many columns
    in every row. *)
Theorem delta_date_feature_shape (dates : list (list cell))
    (tss : list (list Timestamp)) (c : nat) :
  Forall (fun r => length r = c) dates ->
  Forall2 (Forall2 (fun x t => to_datetime x = Ok t)) dates tss ->
  spans_fit tss ->
  exists out,
    delta_date_feature to_datetime dates = Ok out
    /\ length out = length dates
    /\ Forall (fun r => length r = c) out.
Proof.
  intros Hrect Hparse Hspan.
  eexists. split.
  { apply (delta_date_feature_sanitized to_datetime dates tss Hparse).
    apply spans_fit_columns, Hspan. }
  pose proof (sanitized_columns_length dates tss c Hrect Hparse) as Hcols.
  unfold to_numpy. cbn [index_len columns].
  split; [rewrite length_map, length_seq; reflexivity|].
  apply Forall_forall. intros r Hr.
  apply list_elem_of_fmap in Hr as (i & -> & Hi).
  apply elem_of_seq in Hi.
  rewrite (nths_length _ (length dates)) by (assumption || lia).
  rewrite length_map, length_seq.
  apply ncols_rectangular; [assumption|lia].
Qed.

(** A missing date gives a missing output, whatever the other rows hold.  A
    date that is present gives the whole days up to the latest date of its
    column, the latest being taken among the dates that are present; that
    number is not negative. *)
Theorem delta_date_feature_missing (dates : list (list cell))
    (tss : list (list Timestamp)) (c : nat) :
  Forall (fun r => length r = c) dates ->
  Forall2 (Forall2 (fun x t => to_datetime x = Ok t)) dates tss ->
  spans_fit tss ->
  exists out,
    delta_date_feature to_datetime dates = Ok out
    /\ (forall i j, cell_at tss i j = Some None -> cell_at out i j = Some None)
    /\ (forall i j t, cell_at tss i j = Some (Some t) ->
          exists m,
            (exists i', cell_at tss i' j = Some (Some m))
            /\ (forall i' t', cell_at tss i' j = Some (Some t') -> t' <= m)
            /\ cell_at out i j = Some (Some ((m - t) / ns_per_day))
            /\ 0 <= (m - t) / ns_per_day).
Proof.
  intros Hrect Hparse Hspan.
  eexists. split.
  { apply (delta_date_feature_sanitized to_datetime dates tss Hparse).
    apply spans_fit_columns, Hspan. }
  split.
  - intros i j Hcell.
    rewrite (sanitized_cell dates tss c i j None Hrect Hparse Hcell).
    destruct (Series_max (nths j tss)); reflexivity.
  - intros i j t Hcell.
    rewrite (sanitized_cell dates tss c i j (Some t) Hrect Hparse Hcell).
    assert (Hin : Some t ∈ nths j tss) by (apply elem_of_nths; eauto).
    destruct (Series_max_elem (nths j tss) t Hin) as (m & Hm & Hle).
    rewrite Hm. exists m.
    split; [apply elem_of_nths, Series_max_in, Hm|].
    split.
    + intros i' t' Hcell'.
      destruct (Series_max_elem (nths j tss) t') as (m' & Hm' & Hle');
        [apply elem_of_nths; eauto|].
      rewrite Hm in Hm'. injection Hm' as <-. exact Hle'.
    + split; [reflexivity|].
      apply Z.div_pos; [lia | apply ns_per_day_pos].
Qed.

(** A value that cannot be read as a date makes the whole transform raise:
    no array is returned, and the exception is one that reading a value of
    the batch raised. *)
Theorem delta_date_feature_unreadable (dates : list (list cell)) (c i j : nat)
    (x : cell) (e : exn) :
  Forall (fun r => length r = c) dates ->
  cell_at dates i j = Some x ->
  to_datetime x = Raise e ->
  exists e' x',
    delta_date_feature to_datetime dates = Raise e'
    /\ (exists i' j', cell_at dates i' j' = Some x')
    /\ to_datetime x' = Raise e'.
Proof.
  intros Hrect Hcell Hx.
  destruct (cell_at_bounds _ _ _ _ _ Hrect Hcell) as [Hi Hj].
  assert (Hcol : exists e0, mapM to_datetime (nths j dates) = Raise e0).
  { apply (mapM_not_Ok _ _ x e); [|exact Hx].
    apply list_elem_of_lookup. exists i.
    rewrite (nths_lookup _ c) by assumption. exact Hcell. }
  destruct Hcol as [e0 Hcol].
  destruct (mapM_not_Ok (mapM to_datetime)
              (map (fun j => nths j dates) (seq 0 (ncols dates)))
              (nths j dates) e0) as [e' He'].
  { apply list_elem_of_fmap. exists j. split; [reflexivity|].
    apply elem_of_seq. rewrite (ncols_rectangular dates c) by (assumption || lia). lia. }
  { exact Hcol. }
  destruct (mapM_Raise_inv _ _ _ He') as (col & Hin & Hraise).
  destruct (mapM_Raise_inv _ _ _ Hraise) as (x' & Hx' & Hx'e).
  exists e', x'. split; [|split].
  - unfold delta_date_feature, DataFrame_apply, DataFrame_of_array.
    cbn [columns index_len]. rewrite He'. reflexivity.
  - apply list_elem_of_fmap in Hin as (j' & -> & Hj').
    apply elem_of_seq in Hj'.
    rewrite (ncols_rectangular dates c) in Hj' by (assumption || lia).
    apply list_elem_of_lookup in Hx' as [i' Hi'].
    rewrite (nths_lookup _ c) in Hi' by (assumption || lia).
    exists i', j'. exact Hi'.
  - exact Hx'e.
Qed.

End DeltaDateMissing.

Lemma delta_date_feature_shape_witness :
  exists out,
    delta_date_feature to_datetime_raw
      [[date_ns 0; date_missing]; [date_ns (3 * ns_per_day); date_ns ns_per_day]]
    = Ok out
    /\ length out
       = length [[date_ns 0; date_missing];
                 [date_ns (3 * ns_per_day); date_ns ns_per_day]]
    /\ Forall (fun r => length r = 2%nat) out.
Proof.
  apply (delta_date_feature_shape to_datetime_raw
           [[date_ns 0; date_missing]; [date_ns (3 * ns_per_day); date_ns ns_per_day]]
           [[Some 0; None]; [Some (3 * ns_per_day); Some ns_per_day]] 2).
  - repeat constructor.
  - repeat constructor.
  - cells_fit.
Defined.

Lemma delta_date_feature_missing_witness :
  exists out,
    delta_date_feature to_datetime_raw
      [[date_ns 0; date_missing]; [date_ns (3 * ns_per_day); date_ns ns_per_day]]
    = Ok out
    /\ (forall i j,
          cell_at [[Some 0; None]; [Some (3 * ns_per_day); Some ns_per_day]] i j
          = Some None -> cell_at out i j = Some None)
    /\ (forall i j t,
          cell_at [[Some 0; None]; [Some (3 * ns_per_day); Some ns_per_day]] i j
          = Some (Some t) ->
          exists m,
            (exists i',
               cell_at [[Some 0; None]; [Some (3 * ns_per_day); Some ns_per_day]] i' j
               = Some (Some m))
            /\ (forall i' t',
                  cell_at [[Some 0; None]; [Some (3 * ns_per_day); Some ns_per_day]]
                    i' j = Some (Some t') -> t' <= m)
            /\ cell_at out i j = Some (Some ((m - t) / ns_per_day))
            /\ 0 <= (m - t) / ns_per_day).
Proof.
  apply (delta_date_feature_missing to_datetime_raw
           [[date_ns 0; date_missing]; [date_ns (3 * ns_per_day); date_ns ns_per_day]]
           [[Some 0; None]; [Some (3 * ns_per_day); Some ns_per_day]] 2).
  - repeat constructor.
  - repeat constructor.
  - cells_fit.
Defined.

Lemma delta_date_feature_unreadable_witness :
  exists e' x',
    delta_date_feature to_datetime_raw
      [[date_ns 0; date_missing]; [date_garbage; date_ns ns_per_day]] = Raise e'
    /\ (exists i' j',
          cell_at [[date_ns 0; date_missing]; [date_garbage; date_ns ns_per_day]] i' j'
          = Some x')
    /\ to_datetime_raw x' = Raise e'.
Proof.
  apply (delta_date_feature_unreadable to_datetime_raw
           [[date_ns 0; date_missing]; [date_garbage; date_ns ns_per_day]]
           2 1 0 date_garbage "ValueError").
  - repeat constructor.
  - reflexivity.
  - reflexivity.
Defined.

Lemma ncols_Forall2 {A B : Type} (P : A -> B -> Prop) (a : list (list A))
    (b : list (list B)) :
  Forall2 (Forall2 P) a b -> ncols a = ncols b.
Proof.
  destruct 1 as [|r s a b Hrs _]; [reflexivity|].
  simpl. apply (Forall2_length _ _ _ Hrs).
Qed.

Lemma Series_max_shift (l : list Z) (d : Z) :
  Series_max (Some <$> ((fun t => t + d) <$> l))
  = (fun m => m + d) <$> Series_max (Some <$> l).
Proof.
  induction l as [|t l IH]; [reflexivity|].
  rewrite !fmap_cons. cbn [Series_max].
  rewrite IH. destruct (Series_max (Some <$> l)); simpl.
  - rewrite Z.add_max_distr_r. reflexivity.
  - reflexivity.
Qed.

Lemma Timestamp_rsub_shift (m : Timestamp) (t d : Z) :
  Timestamp_rsub ((fun m => m + d) <$> m) (Some (t + d)) = Timestamp_rsub m (Some t).
Proof.
  destruct m as [m|]; [|reflexivity].
  unfold Timestamp_rsub. simpl.
  replace (t + d - (m + d)) with (t - m) by lia.
  replace (m + d - (t + d)) with (m - t) by lia.
  reflexivity.
Qed.

Lemma Series_rsub_shift (m : Timestamp) (l : list Z) (d : Z) :
  Series_rsub ((fun m => m + d) <$> m) (Some <$> ((fun t => t + d) <$> l))
  = Series_rsub m (Some <$> l).
Proof.
  unfold Series_rsub. induction l as [|t l IH]; [reflexivity|].
  rewrite !fmap_cons. cbn [mapM].
  rewrite Timestamp_rsub_shift, IH. reflexivity.
Qed.

Lemma recency_shift (l : list Z) (d : Z) :
  recency (Some <$> ((fun t => t + d) <$> l)) = recency (Some <$> l).
Proof.
  unfold recency. rewrite Series_max_shift, Series_rsub_shift. reflexivity.
Qed.

Section DeltaDateOrder.

Context {cell : Type} (to_datetime : cell -> result Timestamp).

(** Only the distances between the dates of a batch matter: a batch whose
    dates are all moved by the same amount of time is transformed into the
    same array. *)
Theorem delta_date_feature_shift (dates dates' : list (list cell))
    (ts : list (list Z)) (d : Z) :
  Forall2 (Forall2 (fun x t => to_datetime x = Ok (Some t))) dates ts ->
  Forall2 (Forall2 (fun x t => to_datetime x = Ok (Some (t + d)))) dates' ts ->
  delta_date_feature to_datetime dates' = delta_date_feature to_datetime dates.
Proof.
  intros Hparse Hparse'.
  rewrite (delta_date_feature_read to_datetime dates (map (map Some) ts))
    by (apply parsed_Forall2, Hparse).
  rewrite (delta_date_feature_read to_datetime dates'
             (map (map Some) (map (map (fun t => t + d)) ts))).
  - rewrite (Forall2_length _ _ _ Hparse), (Forall2_length _ _ _ Hparse').
    rewrite (ncols_Forall2 _ _ _ Hparse), (ncols_Forall2 _ _ _ Hparse').
    rewrite (mapM_map_ext recency
               (fun j => nths j (map (map Some) (map (map (fun t => t + d)) ts)))
               (fun j => nths j (map (map Some) ts))); [reflexivity|].
    intros j _. rewrite !nths_fmap. apply recency_shift.
  - apply parsed_Forall2, Forall2_fmap_r.
    eapply Forall2_impl; [exact Hparse'|].
    intros r s Hrs. apply Forall2_fmap_r. exact Hrs.
Qed.

(** Within a column whose dates are close enough the transform reverses the
    order of the dates: the later of two dates gets the smaller number of
    days, and a strictly smaller one when it is at least a day later. *)
Theorem delta_date_feature_later_is_smaller (dates : list (list cell))
    (ts : list (list Z)) (c i1 i2 j : nat) (t1 t2 : Z) :
  Forall (fun r => length r = c) dates ->
  Forall2 (Forall2 (fun x t => to_datetime x = Ok (Some t))) dates ts ->
  (forall i i' j t t',
     cell_at ts i j = Some t -> cell_at ts i' j = Some t' -> t' - t <= int64_max) ->
  cell_at ts i1 j = Some t1 ->
  cell_at ts i2 j = Some t2 ->
  t1 <= t2 ->
  exists out d1 d2,
    delta_date_feature to_datetime dates = Ok out
    /\ cell_at out i1 j = Some (Some d1)
    /\ cell_at out i2 j = Some (Some d2)
    /\ d2 <= d1
    /\ (t1 + ns_per_day <= t2 -> d2 < d1).
Proof.
  intros Hrect Hparse Hclose Hc1 Hc2 Hle.
  pose proof (span_fits_cells ts Hclose) as Hspan.
  pose proof (rectangular_Forall2 _ _ _ _ Hparse Hrect) as Hrect'.
  pose proof ns_per_day_pos as Hpos.
  destruct (cell_at_bounds _ _ _ _ _ Hrect' Hc1) as [Hi1 Hj].
  destruct (Series_max_Some (nths j ts)) as (m & Hm & _ & _).
  { intros Hnil.
    pose proof (nths_lookup ts c i1 j Hrect' Hj) as Hl.
    rewrite Hnil, Hc1 in Hl. discriminate. }
  destruct (delta_date_feature_cell to_datetime dates ts c i1 j t1 m)
    as (out & Hout & H1); try assumption.
  destruct (delta_date_feature_cell to_datetime dates ts c i2 j t2 m)
    as (out' & Hout' & H2); try assumption.
  rewrite Hout in Hout'. injection Hout' as <-.
  exists out, ((m - t1) / ns_per_day), ((m - t2) / ns_per_day).
  split; [exact Hout|]. split; [exact H1|]. split; [exact H2|].
  split.
  - apply Z.div_le_mono; [exact Hpos | lia].
  - intros Hday.
    assert (Hstep : (m - t2) / ns_per_day + 1 <= (m - t1) / ns_per_day).
    { rewrite <- (Z.div_add (m - t2) 1 ns_per_day) by lia.
      apply Z.div_le_mono; [exact Hpos | lia]. }
    lia.
Qed.

End DeltaDateOrder.

Lemma delta_date_feature_shift_witness :
  delta_date_feature to_datetime_int
    [[7 + ns_per_day; 5 * ns_per_day]; [3 * ns_per_day + 7; 2 * ns_per_day]]
  = delta_date_feature to_datetime_int
      [[7; 4 * ns_per_day]; [2 * ns_per_day + 7; ns_per_day]].
Proof.
  apply (delta_date_feature_shift to_datetime_int
           [[7; 4 * ns_per_day]; [2 * ns_per_day + 7; ns_per_day]]
           [[7 + ns_per_day; 5 * ns_per_day]; [3 * ns_per_day + 7; 2 * ns_per_day]]
           [[7; 4 * ns_per_day]; [2 * ns_per_day + 7; ns_per_day]]
           ns_per_day).
  - repeat constructor.
  - repeat constructor.
Defined.

Lemma delta_date_feature_later_is_smaller_witness :
  exists out d1 d2,
    delta_date_feature to_datetime_int
      [[7; 4 * ns_per_day]; [2 * ns_per_day + 7; ns_per_day]] = Ok out
    /\ cell_at out 0 0 = Some (Some d1)
    /\ cell_at out 1 0 = Some (Some d2)
    /\ d2 <= d1
    /\ (7 + ns_per_day <= 2 * ns_per_day + 7 -> d2 < d1).
Proof.
  apply (delta_date_feature_later_is_smaller to_datetime_int
           [[7; 4 * ns_per_day]; [2 * ns_per_day + 7; ns_per_day]]
           [[7; 4 * ns_per_day]; [2 * ns_per_day + 7; ns_per_day]]
           2 0 1 0 7 (2 * ns_per_day + 7)).
  - repeat constructor.
  - repeat constructor.
  - cells_fit.
  - reflexivity.
  - reflexivity.
  - vm_compute. discriminate.
Defined.

(** ** Building the pipeline *)

Lemma get_inference_pipeline_cases
    (signature rf_config : gmap string json) (max_tfidf_features : Z) :
  (dom rf_config ⊆ dom signature
   /\ exists r, get_inference_pipeline signature rf_config max_tfidf_features = Ok r)
  \/ (~ dom rf_config ⊆ dom signature
      /\ get_inference_pipeline signature rf_config max_tfidf_features
         = Raise "TypeError").
Proof.
  unfold get_inference_pipeline, RandomForestRegressor.
  destruct (decide (dom rf_config ⊆ dom signature)) as [Hsub|Hnsub]; simpl.
  - left. split; [exact Hsub | eauto].
  - right. split; [exact Hnsub | reflexivity].
Qed.

(** Construction succeeds exactly when every key of the dictionary is a
    keyword of the estimator's constructor; in every other case it raises
    [TypeError]. *)
Theorem get_inference_pipeline_Ok_iff
    (signature rf_config : gmap string json) (max_tfidf_features : Z) :
  ((exists r, get_inference_pipeline signature rf_config max_tfidf_features = Ok r)
   <-> dom rf_config ⊆ dom signature)
  /\ (get_inference_pipeline signature rf_config max_tfidf_features = Raise "TypeError"
      <-> ~ dom rf_config ⊆ dom signature).
Proof.
  destruct (get_inference_pipeline_cases signature rf_config max_tfidf_features)
    as [[Hsub [r Hr]]|[Hnsub Hraise]].
  - split; split.
    + intros _. exact Hsub.
    + intros _. eauto.
    + intros H. rewrite Hr in H. discriminate H.
    + intros H. contradiction.
  - split; split.
    + intros [r Hr]. rewrite Hraise in Hr. discriminate Hr.
    + intros H. contradiction.
    + intros _. exact Hnsub.
    + intros _. exact Hraise.
Qed.

(** For a dictionary of recognized keys the pipeline is built: the returned
    feature names are the columns of the transformers, in the order of the
    transformers and without repetition; unlisted columns are dropped; the
    text vectorizer is bounded by [max_tfidf_features]; and the estimator
    has the value of the dictionary for every key of the dictionary and the
    constructor's default for every other keyword. *)
Theorem get_inference_pipeline_accepts
    (signature rf_config : gmap string json) (max_tfidf_features : Z) :
  dom rf_config ⊆ dom signature ->
  exists pipe,
    get_inference_pipeline signature rf_config max_tfidf_features
    = Ok (pipe, processed_features)
    /\ concat (map snd (transformers (preprocessor pipe))) = processed_features
    /\ NoDup processed_features
    /\ remainder (preprocessor pipe) = "drop"
    /\ last (transformers (preprocessor pipe))
       = Some ("transform_name",
               make_pipeline [SimpleImputer constant (Some (fill_str ""));
                              FunctionTransformer (func_np_reshape (-1));
                              TfidfVectorizer false max_tfidf_features "english"],
               ["name"])
    /\ (forall k v, rf_config !! k = Some v ->
          params (random_forest pipe) !! k = Some v)
    /\ (forall k, rf_config !! k = None ->
          params (random_forest pipe) !! k = signature !! k).
Proof.
  intros Hsub. unfold get_inference_pipeline.
  rewrite (RandomForestRegressor_accepts _ _ Hsub). simpl.
  eexists. split; [reflexivity|]. simpl.
  split; [reflexivity|].
  split; [apply (bool_decide_unpack _); vm_compute; exact I|].
  split; [reflexivity|].
  split; [reflexivity|].
  split.
  - intros k v Hk. apply lookup_union_Some_l, Hk.
  - intros k Hk. apply lookup_union_r, Hk.
Qed.

Lemma get_inference_pipeline_accepts_witness :
  exists pipe,
    get_inference_pipeline sklearn_signature {["n_estimators" := JInt 10]} 5
    = Ok (pipe, processed_features)
    /\ concat (map snd (transformers (preprocessor pipe))) = processed_features
    /\ NoDup processed_features
    /\ remainder (preprocessor pipe) = "drop"
    /\ last (transformers (preprocessor pipe))
       = Some ("transform_name",
               make_pipeline [SimpleImputer constant (Some (fill_str ""));
                              FunctionTransformer (func_np_reshape (-1));
                              TfidfVectorizer false 5 "english"],
               ["name"])
    /\ (forall k v, ({["n_estimators" := JInt 10]} : gmap string json) !! k = Some v ->
          params (random_forest pipe) !! k = Some v)
    /\ (forall k, ({["n_estimators" := JInt 10]} : gmap string json) !! k = None ->
          params (random_forest pipe) !! k = sklearn_signature !! k).
Proof.
  apply (get_inference_pipeline_accepts sklearn_signature
           {["n_estimators" := JInt 10]} 5).
  apply (bool_decide_unpack _). vm_compute. exact I.
Defined.

(** ** The run, step by step *)

Lemma pop_Some (X : gmap string (list value)) (name : string) (c : list value) :
  X !! name = Some c -> pop X name = Ok (c, delete name X).
Proof. intros H. unfold pop, getitem. rewrite H. reflexivity. Qed.

Lemma pop_None (X : gmap string (list value)) (name : string) :
  X !! name = None -> pop X name = Raise "KeyError".
Proof. intros H. unfold pop, getitem. rewrite H. reflexivity. Qed.

Lemma getitem_Some (X : gmap string (list value)) (name : string) (c : list value) :
  X !! name = Some c -> getitem X name = Ok c.
Proof. intros H. unfold getitem. rewrite H. reflexivity. Qed.

Lemma getitem_None (X : gmap string (list value)) (name : string) :
  X !! name = None -> getitem X name = Raise "KeyError".
Proof. intros H. unfold getitem. rewrite H. reflexivity. Qed.

Lemma dom_insert_random_state (signature loaded : gmap string json) (seed : Z) :
  dom (<["random_state" := JInt seed]> loaded) ⊆ dom signature
  <-> "random_state" ∈ dom signature /\ dom loaded ⊆ dom signature.
Proof.
  rewrite dom_insert. split.
  - intros Hsub. split.
    + apply Hsub, elem_of_union_l, elem_of_singleton. reflexivity.
    + intros k Hk. apply Hsub, elem_of_union_r, Hk.
  - intros [Hrs Hsub]. apply union_subseteq. split; [|exact Hsub].
    apply singleton_subseteq_l, Hrs.
Qed.

Section GoSteps.

Context (signature : gmap string json).
Context (train_test_split :
  gmap string (list value) -> list value -> Q -> list value -> Z -> result Split).

(** The run stops with [KeyError] when the table has no [price] column,
    when the column to stratify by is not in the table, and also when it is
    [price] itself: the target has been taken out of the table before the
    stratification column is looked up.  Neither the split nor the
    hyperparameters are looked at. *)
Theorem go_missing_column_KeyError
    (args : Namespace) (loaded : gmap string json)
    (trainval : gmap string (list value)) :
  trainval !! "price" = None
  \/ stratify_by args = "price"
  \/ trainval !! stratify_by args = None ->
  go signature train_test_split args loaded trainval = Raise "KeyError".
Proof.
  intros Hmissing. unfold go.
  destruct (trainval !! "price") as [y|] eqn:Hprice.
  - rewrite (pop_Some _ _ _ Hprice). simpl.
    rewrite getitem_None; [reflexivity|].
    destruct Hmissing as [H|[H|H]]; [discriminate| |].
    + rewrite H. apply lookup_delete_eq.
    + destruct (decide (stratify_by args = "price")) as [->|Hne].
      * apply lookup_delete_eq.
      * rewrite lookup_delete_ne by congruence. exact H.
  - rewrite (pop_None _ _ Hprice). reflexivity.
Qed.

(** When the split raises, the run raises the same exception, whatever the
    hyperparameters are: the dictionary is not checked before the split. *)
Theorem go_split_raises
    (args : Namespace) (loaded : gmap string json)
    (trainval : gmap string (list value)) (y stratify : list value) (e : exn) :
  trainval !! "price" = Some y ->
  delete "price" trainval !! stratify_by args = Some stratify ->
  train_test_split (delete "price" trainval) y (val_size args) stratify
    (random_seed args) = Raise e ->
  go signature train_test_split args loaded trainval = Raise e.
Proof.
  intros Hprice Hstrat Hsplit. unfold go.
  rewrite (pop_Some _ _ _ Hprice). simpl.
  rewrite (getitem_Some _ _ _ Hstrat). simpl.
  rewrite Hsplit. reflexivity.
Qed.

(** With the columns in place and the split made, a key that is not a
    keyword of the estimator's constructor stops the run with [TypeError]. *)
Theorem go_unexpected_keyword_TypeError
    (args : Namespace) (loaded : gmap string json)
    (trainval : gmap string (list value)) (y stratify : list value) (s : Split)
    (k : string) :
  trainval !! "price" = Some y ->
  delete "price" trainval !! stratify_by args = Some stratify ->
  train_test_split (delete "price" trainval) y (val_size args) stratify
    (random_seed args) = Ok s ->
  k ∈ dom loaded ->
  k ∉ dom signature ->
  go signature train_test_split args loaded trainval = Raise "TypeError".
Proof.
  intros Hprice Hstrat Hsplit Hin Hout. unfold go.
  rewrite (pop_Some _ _ _ Hprice). simpl.
  rewrite (getitem_Some _ _ _ Hstrat). simpl.
  rewrite Hsplit. simpl.
  unfold get_inference_pipeline.
  rewrite (RandomForestRegressor_unexpected_keyword _ _ k); [reflexivity| |exact Hout].
  rewrite dom_insert. apply elem_of_union_r, Hin.
Qed.

(** What a run needs to get as far as a built pipeline: a [price] column, a
    stratification column other than [price], a split that succeeds on the
    table without [price], and a dictionary all of whose keys, and
    [random_state], are keywords of the constructor. *)
Theorem go_succeeds_iff
    (args : Namespace) (loaded : gmap string json)
    (trainval : gmap string (list value)) :
  (exists p, go signature train_test_split args loaded trainval = Ok p)
  <-> exists y stratify s,
        trainval !! "price" = Some y
        /\ stratify_by args <> "price"
        /\ trainval !! stratify_by args = Some stratify
        /\ train_test_split (delete "price" trainval) y (val_size args) stratify
             (random_seed args) = Ok s
        /\ "random_state" ∈ dom signature
        /\ dom loaded ⊆ dom signature.
Proof.
  unfold go. split.
  - intros [p Hp].
    destruct (trainval !! "price") as [y|] eqn:Hprice;
      [rewrite (pop_Some _ _ _ Hprice) in Hp
      |rewrite (pop_None _ _ Hprice) in Hp; discriminate Hp].
    simpl in Hp.
    destruct (delete "price" trainval !! stratify_by args) as [stratify|] eqn:Hstrat;
      [rewrite (getitem_Some _ _ _ Hstrat) in Hp
      |rewrite (getitem_None _ _ Hstrat) in Hp; discriminate Hp].
    simpl in Hp.
    destruct (train_test_split (delete "price" trainval) y (val_size args) stratify
                (random_seed args)) as [s|e] eqn:Hsplit; [|discriminate Hp].
    simpl in Hp.
    assert (Hne : stratify_by args <> "price").
    { intros Heq. rewrite Heq, lookup_delete_eq in Hstrat. discriminate. }
    rewrite lookup_delete_ne in Hstrat by congruence.
    assert (Hdom : dom (<["random_state" := JInt (random_seed args)]> loaded)
                   ⊆ dom signature).
    { destruct (get_inference_pipeline_cases signature
                  (<["random_state" := JInt (random_seed args)]> loaded)
                  (max_tfidf_features args)) as [[Hsub _]|[_ Hraise]];
        [exact Hsub | rewrite Hraise in Hp; discriminate Hp]. }
    apply dom_insert_random_state in Hdom as [Hrs Hsub].
    exists y, stratify, s. repeat split; assumption.
  - intros (y & stratify & s & Hprice & Hne & Hstrat & Hsplit & Hrs & Hsub).
    rewrite (pop_Some _ _ _ Hprice). simpl.
    rewrite (getitem_Some _ _ stratify)
      by (rewrite lookup_delete_ne by congruence; exact Hstrat).
    simpl. rewrite Hsplit. simpl.
    destruct (get_inference_pipeline_cases signature
                (<["random_state" := JInt (random_seed args)]> loaded)
                (max_tfidf_features args)) as [[_ [[pipe names] ->]]|[Hnsub _]].
    + simpl. eauto.
    + exfalso. apply Hnsub, dom_insert_random_state. split; assumption.
Qed.

(** A run that gets through has split the table without its [price] column,
    with [price] as the target, [val_size] as the test size, the named column
    as the strata and [random_seed] as the seed; the features it reports are
    the eleven processed columns, [price] not among them. *)
Theorem go_split_inputs
    (args : Namespace) (loaded : gmap string json)
    (trainval : gmap string (list value)) (p : Prepared) :
  go signature train_test_split args loaded trainval = Ok p ->
  exists y stratify,
    trainval !! "price" = Some y
    /\ trainval !! stratify_by args = Some stratify
    /\ train_test_split (delete "price" trainval) y (val_size args) stratify
         (random_seed args) = Ok (split p)
    /\ delete "price" trainval !! "price" = None
    /\ features p = processed_features
    /\ "price" ∉ features p.
Proof.
  unfold go. intros Hp.
  destruct (trainval !! "price") as [y|] eqn:Hprice;
    [rewrite (pop_Some _ _ _ Hprice) in Hp
    |rewrite (pop_None _ _ Hprice) in Hp; discriminate Hp].
  simpl in Hp.
  destruct (delete "price" trainval !! stratify_by args) as [stratify|] eqn:Hstrat;
    [rewrite (getitem_Some _ _ _ Hstrat) in Hp
    |rewrite (getitem_None _ _ Hstrat) in Hp; discriminate Hp].
  simpl in Hp.
  destruct (train_test_split (delete "price" trainval) y (val_size args) stratify
              (random_seed args)) as [s|e] eqn:Hsplit; [|discriminate Hp].
  simpl in Hp.
  assert (Hne : stratify_by args <> "price").
  { intros Heq. rewrite Heq, lookup_delete_eq in Hstrat. discriminate. }
  rewrite lookup_delete_ne in Hstrat by congruence.
  unfold get_inference_pipeline in Hp.
  destruct (RandomForestRegressor signature _) as [forest|e]; [|discriminate Hp].
  simpl in Hp. injection Hp as <-. cbn [split features].
  exists y, stratify. repeat split; try assumption.
  - apply lookup_delete_eq.
  - apply (bool_decide_unpack _). vm_compute. exact I.
Qed.

(** A run that gets through has changed no hyperparameter but
    [random_state]: every other key of the loaded dictionary is recorded and
    handed to the estimator with its loaded value, and a keyword that the
    dictionary does not set keeps the constructor's default. *)
Theorem go_keeps_other_hyperparameters
    (args : Namespace) (loaded : gmap string json)
    (trainval : gmap string (list value)) (p : Prepared) :
  go signature train_test_split args loaded trainval = Ok p ->
  forall k, k <> "random_state" ->
    metadata p !! k = loaded !! k
    /\ (forall v, loaded !! k = Some v ->
          params (random_forest (sk_pipe p)) !! k = Some v)
    /\ (loaded !! k = None ->
          params (random_forest (sk_pipe p)) !! k = signature !! k).
Proof.
  unfold go. intros Hp k Hk.
  destruct (pop trainval "price") as [[y X]|e]; [|discriminate Hp].
  simpl in Hp.
  destruct (getitem X (stratify_by args)) as [stratify|e]; [|discriminate Hp].
  simpl in Hp.
  destruct (train_test_split X y (val_size args) stratify (random_seed args))
    as [s|e]; [|discriminate Hp].
  simpl in Hp.
  unfold get_inference_pipeline, RandomForestRegressor in Hp.
  destruct (decide (dom (<["random_state" := JInt (random_seed args)]> loaded)
                    ⊆ dom signature)); [|discriminate Hp].
  simpl in Hp. injection Hp as <-. cbn [metadata sk_pipe random_forest params].
  split; [apply lookup_insert_ne; congruence|].
  split.
  - intros v Hv. apply lookup_union_Some_l.
    rewrite lookup_insert_ne by congruence. exact Hv.
  - intros Hnone. apply lookup_union_r.
    rewrite lookup_insert_ne by congruence. exact Hnone.
Qed.

End GoSteps.

Lemma go_missing_column_KeyError_witness :
  go sklearn_signature split_in_order
     {| trainval_artifact := "trainval_data.csv:latest"; val_size := 1 # 4;
        random_seed := 42; stratify_by := "price"; rf_config := "rf.json";
        max_tfidf_features := 10; output_artifact := "random_forest_export" |}
     ∅ listings
  = Raise "KeyError".
Proof.
  apply (go_missing_column_KeyError sklearn_signature split_in_order
           {| trainval_artifact := "trainval_data.csv:latest"; val_size := 1 # 4;
              random_seed := 42; stratify_by := "price"; rf_config := "rf.json";
              max_tfidf_features := 10; output_artifact := "random_forest_export" |}
           ∅ listings).
  right. left. reflexivity.
Defined.

Lemma go_split_raises_witness :
  go sklearn_signature split_checked
     {| trainval_artifact := "trainval_data.csv:latest"; val_size := 3 # 2;
        random_seed := 42; stratify_by := "room_type"; rf_config := "rf.json";
        max_tfidf_features := 10; output_artifact := "random_forest_export" |}
     {["n_trees" := JInt 50]} listings
  = Raise "ValueError".
Proof.
  apply (go_split_raises sklearn_signature split_checked
           {| trainval_artifact := "trainval_data.csv:latest"; val_size := 3 # 2;
              random_seed := 42; stratify_by := "room_type"; rf_config := "rf.json";
              max_tfidf_features := 10; output_artifact := "random_forest_export" |}
           {["n_trees" := JInt 50]} listings
           [number 100; number 80; number 120; number 60]
           [text "Private room"; text "Entire home/apt";
            text "Private room"; text "Entire home/apt"]
           "ValueError").
  - vm_compute. reflexivity.
  - vm_compute. reflexivity.
  - vm_compute. reflexivity.
Defined.

Lemma go_unexpected_keyword_TypeError_witness :
  go sklearn_signature split_in_order room_type_args
     {["n_trees" := JInt 50]} listings
  = Raise "TypeError".
Proof.
  apply (go_unexpected_keyword_TypeError sklearn_signature split_in_order
           room_type_args {["n_trees" := JInt 50]} listings
           [number 100; number 80; number 120; number 60]
           [text "Private room"; text "Entire home/apt";
            text "Private room"; text "Entire home/apt"]
           {| X_train := take 3%nat <$> delete "price" listings;
              X_val := drop 3%nat <$> delete "price" listings;
              y_train := [number 100; number 80; number 120];
              y_val := [number 60] |}
           "n_trees").
  - vm_compute. reflexivity.
  - vm_compute. reflexivity.
  - vm_compute. reflexivity.
  - vm_compute. reflexivity.
  - vm_compute. intros H. discriminate H.
Defined.

Lemma go_split_inputs_witness :
  exists p,
    go sklearn_signature split_in_order room_type_args ∅ listings = Ok p
    /\ exists y stratify,
         listings !! "price" = Some y
         /\ listings !! stratify_by room_type_args = Some stratify
         /\ split_in_order (delete "price" listings) y (val_size room_type_args)
              stratify (random_seed room_type_args) = Ok (split p)
         /\ delete "price" listings !! "price" = None
         /\ features p = processed_features
         /\ "price" ∉ features p.
Proof.
  eexists. split.
  - vm_compute. reflexivity.
  - apply (go_split_inputs sklearn_signature split_in_order room_type_args ∅ listings).
    vm_compute. reflexivity.
Defined.

Lemma go_keeps_other_hyperparameters_witness :
  exists p,
    go sklearn_signature split_in_order room_type_args
       (<["random_state" := JInt 7]> {["n_estimators" := JInt 10]}) listings = Ok p
    /\ forall k, k <> "random_state" ->
         metadata p !! k
         = (<["random_state" := JInt 7]> {["n_estimators" := JInt 10]}
            : gmap string json) !! k
         /\ (forall v,
               (<["random_state" := JInt 7]> {["n_estimators" := JInt 10]}
                : gmap string json) !! k = Some v ->
               params (random_forest (sk_pipe p)) !! k = Some v)
         /\ ((<["random_state" := JInt 7]> {["n_estimators" := JInt 10]}
              : gmap string json) !! k = None ->
             params (random_forest (sk_pipe p)) !! k = sklearn_signature !! k).
Proof.
  eexists. split.
  - vm_compute. reflexivity.
  - apply (go_keeps_other_hyperparameters sklearn_signature split_in_order
             room_type_args
             (<["random_state" := JInt 7]> {["n_estimators" := JInt 10]}) listings).
    vm_compute. reflexivity.
Defined.

(** ** The fitted one-hot group at transform time *)

Lemma one_hot_sum_absent (cats : list string) (c : string) :
  c ∉ cats -> (sum (one_hot cats c) == 0)%Q.
Proof.
  induction cats as [|k cats IH]; intros Hc.
  - reflexivity.
  - unfold one_hot in *. simpl. rewrite sum_cons.
    destruct (decide (k = c)) as [->|_].
    + exfalso. apply Hc. left.
    + rewrite IH; [ring|]. intros Hin. apply Hc. right. exact Hin.
Qed.

Lemma one_hot_sum (cats : list string) (c : string) :
  NoDup cats -> c ∈ cats -> (sum (one_hot cats c) == 1)%Q.
Proof.
  induction 1 as [|k cats Hk _ IH]; intros Hc; [inversion Hc|].
  unfold one_hot in *. simpl. rewrite sum_cons.
  destruct (decide (k = c)) as [->|Hne].
  - fold (one_hot cats c). rewrite (one_hot_sum_absent cats c Hk). ring.
  - apply elem_of_cons in Hc as [->|Hc]; [congruence|].
    rewrite (IH Hc). ring.
Qed.

Lemma mapM_Ok_elem {A B : Type} (f : A -> result B) (l : list A) (ys : list B)
    (a : A) :
  mapM f l = Ok ys -> a ∈ l -> exists y, f a = Ok y.
Proof.
  intros Hok Hin.
  destruct (f a) as [y|e] eqn:Ha; [eauto|].
  destruct (mapM_not_Ok f l a e Hin Ha) as [e' He'].
  rewrite He' in Hok. discriminate.
Qed.

Lemma elem_of_categories (train : list (option string)) (f : FittedOneHot)
    (c : string) :
  fit_categorical non_ordinal_categorical_preproc train = Ok f ->
  c ∈ categories_ f <-> c ∈ observed train.
Proof.
  intros Hfit. rewrite (fit_categorical_categories _ _ Hfit).
  apply elem_of_unique_sorted.
Qed.

Lemma impute_known (train batch : list (option string)) (f : FittedOneHot) :
  fit_categorical non_ordinal_categorical_preproc train = Ok f ->
  (forall c, Some c ∈ batch -> c ∈ observed train) ->
  forall c, c ∈ impute (statistics_ f) batch -> c ∈ categories_ f.
Proof.
  intros Hfit Hknown c Hc. apply (elem_of_categories train f c Hfit).
  unfold impute in Hc. apply list_elem_of_fmap in Hc as ([x|] & -> & Hx); simpl.
  - apply Hknown, Hx.
  - apply statistics_observed, Hfit.
Qed.

(** The fitted pipeline transforms a batch exactly when the batch has a row
    and every category in it was observed in the training column; missing
    values are no obstacle.  When it does not transform the batch it raises
    [ValueError]. *)
Theorem transform_categorical_Ok_iff
    (train batch : list (option string)) (f : FittedOneHot) :
  fit_categorical non_ordinal_categorical_preproc train = Ok f ->
  ((exists rows, transform_categorical f batch = Ok rows)
   <-> batch <> [] /\ (forall c, Some c ∈ batch -> c ∈ observed train))
  /\ (forall e, transform_categorical f batch = Raise e -> e = "ValueError").
Proof.
  intros Hfit.
  pose proof (fit_categorical_Ok _ _ Hfit) as (_ & Hpolicy & _).
  split; [split|].
  - intros [rows Hrows].
    assert (Hne : batch <> []) by (intros ->; discriminate Hrows).
    split; [exact Hne|]. intros c Hc.
    rewrite transform_categorical_rows_given in Hrows by exact Hne.
    apply (elem_of_categories train f c Hfit).
    destruct (mapM_Ok_elem _ _ _ c Hrows) as [y Hy].
    { unfold impute. apply list_elem_of_fmap. exists (Some c).
      split; [reflexivity | exact Hc]. }
    unfold encode in Hy. rewrite Hpolicy in Hy.
    destruct (decide (c ∈ categories_ f)); [assumption | discriminate].
  - intros [Hne Hknown]. eexists.
    apply transform_categorical_known; [exact Hne|].
    apply (impute_known train batch f Hfit Hknown).
  - intros e He. destruct batch as [|x batch].
    + injection He as <-. reflexivity.
    + rewrite transform_categorical_rows_given in He by discriminate.
      destruct (mapM_Raise_inv _ _ _ He) as (c & _ & Hc).
      unfold encode in Hc. rewrite Hpolicy in Hc.
      destruct (decide (c ∈ categories_ f)); [discriminate|].
      injection Hc as <-. reflexivity.
Qed.

Lemma transform_categorical_Ok_iff_witness :
  ((exists rows,
      transform_categorical
        {| statistics_ := "Queens"; handle_unknown_ := unknown_error;
           categories_ := ["Bronx"; "Queens"] |}
        [None; Some "Bronx"] = Ok rows)
   <-> [None; Some "Bronx"] <> []
       /\ (forall c, Some c ∈ [None; Some "Bronx"] -> c ∈ observed training_column))
  /\ (forall e,
        transform_categorical
          {| statistics_ := "Queens"; handle_unknown_ := unknown_error;
             categories_ := ["Bronx"; "Queens"] |}
          [None; Some "Bronx"] = Raise e -> e = "ValueError").
Proof.
  apply (transform_categorical_Ok_iff training_column [None; Some "Bronx"]
           {| statistics_ := "Queens"; handle_unknown_ := unknown_error;
              categories_ := ["Bronx"; "Queens"] |}).
  vm_compute. reflexivity.
Defined.

(** A batch of at least one row, of observed categories and missing values,
    is encoded row by row: as many rows as the batch has, each as wide as
    the fitted encoder and adding up to 1; a row that holds a category gets
    the encoding of that category, and a row whose value is missing gets
    the encoding of the most frequent category of the training column. *)
Theorem transform_categorical_rows
    (train batch : list (option string)) (f : FittedOneHot) :
  fit_categorical non_ordinal_categorical_preproc train = Ok f ->
  batch <> [] ->
  (forall c, Some c ∈ batch -> c ∈ observed train) ->
  exists rows,
    transform_categorical f batch = Ok rows
    /\ length rows = length batch
    /\ Forall (fun r => length r = width f /\ (sum r == 1)%Q) rows
    /\ (forall i, batch !! i = Some None ->
          exists r, rows !! i = Some r /\ encodes f (statistics_ f) r)
    /\ (forall i c, batch !! i = Some (Some c) ->
          exists r, rows !! i = Some r /\ encodes f c r).
Proof.
  intros Hfit Hne Hknown.
  pose proof (impute_known train batch f Hfit Hknown) as Himp.
  assert (Hnodup : NoDup (categories_ f)).
  { rewrite (fit_categorical_categories _ _ Hfit). apply unique_sorted_NoDup. }
  eexists. split; [apply transform_categorical_known; assumption|].
  split; [unfold impute; rewrite !length_map; reflexivity|].
  split; [|split].
  - apply Forall_forall. intros r Hr.
    apply list_elem_of_fmap in Hr as (c & -> & Hc).
    split; [apply one_hot_length|].
    apply one_hot_sum; [exact Hnodup | apply Himp, Hc].
  - intros i Hi. eexists. split.
    + unfold impute. rewrite !list_lookup_fmap, Hi. reflexivity.
    + apply one_hot_encodes; [exact Hnodup|].
      apply (elem_of_categories train f _ Hfit), statistics_observed, Hfit.
  - intros i c Hi. eexists. split.
    + unfold impute. rewrite !list_lookup_fmap, Hi. reflexivity.
    + apply one_hot_encodes; [exact Hnodup|].
      apply (elem_of_categories train f _ Hfit), Hknown, list_elem_of_lookup.
      eauto.
Qed.

Lemma transform_categorical_rows_witness :
  exists rows,
    transform_categorical
      {| statistics_ := "Queens"; handle_unknown_ := unknown_error;
         categories_ := ["Bronx"; "Queens"] |}
      [None; Some "Bronx"] = Ok rows
    /\ length rows = length [None; Some "Bronx"]
    /\ Forall (fun r =>
                 length r
                 = width {| statistics_ := "Queens"; handle_unknown_ := unknown_error;
                            categories_ := ["Bronx"; "Queens"] |}
                 /\ (sum r == 1)%Q) rows
    /\ (forall i, [None; Some "Bronx"] !! i = Some None ->
          exists r,
            rows !! i = Some r
            /\ encodes {| statistics_ := "Queens"; handle_unknown_ := unknown_error;
                          categories_ := ["Bronx"; "Queens"] |} "Queens" r)
    /\ (forall i c, [None; Some "Bronx"] !! i = Some (Some c) ->
          exists r,
            rows !! i = Some r
            /\ encodes {| statistics_ := "Queens"; handle_unknown_ := unknown_error;
                          categories_ := ["Bronx"; "Queens"] |} c r).
Proof.
  apply (transform_categorical_rows training_column [None; Some "Bronx"]
           {| statistics_ := "Queens"; handle_unknown_ := unknown_error;
              categories_ := ["Bronx"; "Queens"] |}).
  - vm_compute. reflexivity.
  - discriminate.
  - intros c Hc. apply list_elem_of_In in Hc. simpl in Hc.
    destruct Hc as [H|[H|[]]]; [discriminate H|].
    injection H as <-. apply (bool_decide_unpack _). vm_compute. exact I.
Defined.
